(** * CalculatorLayoutClass: grid fitting and remainder packing

    A shallow embedding of the layout core of
    [src/src/calculator-layout.class.ts]: [_inlineCut], [_crossCut],
    [_buildRectMatrix], [_calculateRemain], [_generateLayoutMatrix],
    [calculate], and the validation methods run by the constructor.

    The layout core is embedded twice.  The first embedding takes the
    dimensions as integers [Z] (the documented examples all use whole
    units): on integers, JavaScript's [%] is the truncated remainder
    [Z.rem], and [(a - a % b) / b] is an exact division, written [Z.div].
    The module [F64] takes them as JavaScript numbers, IEEE-754 binary64
    doubles (Rocq's primitive floats), where those operations round.
    Thrown [Error]s are values of the type [err] in a small error monad. *)

From Stdlib Require Import ZArith List Lia Bool.
Import ListNotations.
Open Scope Z_scope.

(** ** Data model (calculator-layout.interface.ts) *)

(** [ISquareSize] *)
Record ISquareSize := mkSize { width : Z; height : Z }.

(** [ILayoutCoords] *)
Record ILayoutCoords := mkCoords { x : Z; y : Z }.

(** [IRectPlotConfig]; the layout code always sets [x] and [y]. *)
Record IRectPlotConfig := mkRect { rx : Z; ry : Z; rwidth : Z; rheight : Z }.

(** [IMatrixGrid] *)
Record IMatrixGrid := mkGrid { row : Z; column : Z }.

(** [IRectMatrixResult] *)
Record IRectMatrixResult := mkPlacement {
  inner : IRectPlotConfig;
  outer : IRectPlotConfig;
  gridRow : Z;
  gridColumn : Z
}.

(** [IPaperLayoutSizing] as built by [calculate]. *)
Record IPaperLayoutSizing := mkSizing {
  source : ISquareSize;
  outerSize : ISquareSize;
  innerSize : ISquareSize;
  marginSize : ISquareSize
}.

(** The errors thrown by the layout core, one per [throw] site. *)
Inductive err :=
  | DivisionByZero                (* _validateDivisionByZero *)
  | EmptyGridRow                  (* _validateGrid, rows *)
  | EmptyGridColumn               (* _validateGrid, columns *)
  | NegativeRemainX               (* _validateRemainXY *)
  | NegativeRemainY               (* _validateRemainXY *)
  | EmptyRectMatrixArray          (* _validateRectMatrixArray, outer array *)
  | EmptyRectMatrixRow            (* _validateRectMatrixArray, first row *)
  | InvalidArrayLength            (* RangeError of Array(n) or of push *)
  | MissingInput                  (* _validateTarget, NaN source/target *)
  | TargetNotPositive             (* _validateTarget *)
  | TargetTooLarge                (* _validateTarget *)
  | SourceNaN                     (* _validateSource *)
  | SourceNotPositive             (* _validateSource *)
  | MarginNegative                (* _validateMargin *)
  | MarginTooLarge.               (* _validateMargin *)

(** A small error monad for the throwing methods. *)
Inductive result (A : Type) := Ok (a : A) | Err (e : err).
Arguments Ok {A} a.
Arguments Err {A} e.

Definition bind {A B} (m : result A) (k : A -> result B) : result B :=
  match m with Ok a => k a | Err e => Err e end.

Notation "x <- m ;; k" := (bind m (fun x => k))
  (at level 61, m at next level, right associativity).
Notation "m ;;; k" := (bind m (fun _ : unit => k))
  (at level 61, right associativity).

Definition throw_if (b : bool) (e : err) : result unit :=
  if b then Err e else Ok tt.

(** ** Validation helpers used by the layout core *)

Definition _validateDivisionByZero (dividend : Z) : result unit :=
  throw_if (dividend =? 0) DivisionByZero.

Definition _validateGrid (grid : IMatrixGrid) : result unit :=
  throw_if (row grid <=? 0) EmptyGridRow ;;;
  throw_if (column grid <=? 0) EmptyGridColumn.

Definition _validateRemainXY (remainX remainY : Z) : result unit :=
  throw_if (remainX <? 0) NegativeRemainX ;;;
  throw_if (remainY <? 0) NegativeRemainY.

(** A matrix [IRectMatrixResult[][]]: only its shape is read by
    [_buildRectMatrix], so its cells are [unit]. *)
Definition matrix := list (list unit).

Definition _validateRectMatrixArray (m : matrix) : result unit :=
  match m with
  | [] => Err EmptyRectMatrixArray
  | r0 :: _ => throw_if (Nat.eqb (length r0) 0) EmptyRectMatrixRow
  end.

(** [Array(n).fill(v)]: a [RangeError] unless [ToUint32(n)] is [n], which
    for an integer [n] means [0 <= n < 2^32]. *)
Definition js_array_fill {A} (n : Z) (v : A) : result (list A) :=
  if (n <? 0) || (2 ^ 32 <=? n) then Err InvalidArrayLength else Ok (repeat v (Z.to_nat n)).

(** [Array(rows).fill(Array(columns).fill({...}))] *)
Definition mkMatrix (rows columns : Z) : result matrix :=
  cells <- js_array_fill columns tt ;;
  js_array_fill rows cells.

(** ** Grid fitter *)

Definition _inlineCut (source target margin : ISquareSize) : result IMatrixGrid :=
  _validateDivisionByZero (width target + 2 * width margin) ;;;
  _validateDivisionByZero (height target + 2 * height margin) ;;;
  let input := mkSize (width target + 2 * width margin)
                      (height target + 2 * height margin) in
  let remainX := Z.rem (width source) (width input) in
  let remainY := Z.rem (height source) (height input) in
  let column := (width source - remainX) / width input in
  let row := (height source - remainY) / height input in
  Ok (mkGrid row column).

Definition _crossCut (source target margin : ISquareSize) : result IMatrixGrid :=
  _validateDivisionByZero (width target + 2 * width margin) ;;;
  _validateDivisionByZero (height target + 2 * height margin) ;;;
  let input := mkSize (width target + 2 * width margin)
                      (height target + 2 * height margin) in
  let remainX := Z.rem (width source) (height input) in
  let remainY := Z.rem (height source) (width input) in
  let column := (width source - remainX) / height input in
  let row := (height source - remainY) / width input in
  Ok (mkGrid row column).

(** ** Layout packer *)

(** [start ? start.x : 0] and [start ? start.y : 0] *)
Definition start_x (start : option ILayoutCoords) : Z :=
  match start with Some s => x s | None => 0 end.
Definition start_y (start : option ILayoutCoords) : Z :=
  match start with Some s => y s | None => 0 end.

(** The cell at row [r], column [c] of [_buildRectMatrix], with the sizes
    already swapped when [reverse] is set. *)
Definition cell (outerS innerS marginS : ISquareSize) (start : option ILayoutCoords)
    (r c : Z) : IRectMatrixResult :=
  let outer := mkRect (start_x start + c * width outerS) (start_y start + r * height outerS)
                      (width outerS) (height outerS) in
  let inner := mkRect (rx outer + width marginS) (ry outer + height marginS)
                      (width innerS) (height innerS) in
  mkPlacement inner outer r c.

(** The two nested [for] loops: rows in order, within a row columns in order. *)
Fixpoint build_cols (f : Z -> IRectMatrixResult) (c : Z) (cols : list unit)
    : list IRectMatrixResult :=
  match cols with
  | [] => []
  | _ :: rest => f c :: build_cols f (c + 1) rest
  end.

Fixpoint build_rows (f : Z -> Z -> IRectMatrixResult) (r : Z) (rows : matrix)
    : list IRectMatrixResult :=
  match rows with
  | [] => []
  | cols :: rest => build_cols (f r) 0 cols ++ build_rows f (r + 1) rest
  end.

Definition swap_if (reverse : bool) (s : ISquareSize) : ISquareSize :=
  if reverse then mkSize (height s) (width s) else s.

(** [results.push] throws a [RangeError] once [results] holds [2^32 - 1]
    elements, the largest array length. *)
Definition _buildRectMatrix (rectMatrixArray : matrix) (sizing : IPaperLayoutSizing)
    (reverse : bool) (start : option ILayoutCoords) : result (list IRectMatrixResult) :=
  _validateRectMatrixArray rectMatrixArray ;;;
  let outerS := swap_if reverse (outerSize sizing) in
  let innerS := swap_if reverse (innerSize sizing) in
  let marginS := swap_if reverse (marginSize sizing) in
  let results := build_rows (cell outerS innerS marginS start) 0 rectMatrixArray in
  throw_if (2 ^ 32 - 1 <? Z.of_nat (length results)) InvalidArrayLength ;;;
  Ok results.

(** [_calculateRemain]: [container] is the main grid's bounding box. *)
Definition _calculateRemain (source container target margin : ISquareSize)
    : result (option (IMatrixGrid * ILayoutCoords)) :=
  let remainX := width source - width container in
  let remainContainerX := mkSize remainX (height source) in
  let remainY := height source - height container in
  let remainContainerY := mkSize (width source) remainY in
  _validateRemainXY remainX remainY ;;;
  let condition1 := target.(width) <=? remainY in
  let condition2 := target.(height) <=? remainX in
  if condition2 then
    grid <- _crossCut remainContainerX target margin ;;
    Ok (Some (grid, mkCoords (width container) 0))
  else if condition1 then
    grid <- _crossCut remainContainerY target margin ;;
    Ok (Some (grid, mkCoords 0 (height container)))
  else Ok None.

(** [ILayoutResult]: [remain] is an absent key when there is no remainder. *)
Record ILayoutResult := mkLayout {
  main : list IRectMatrixResult;
  remain : option (list IRectMatrixResult)
}.

(** The main grid's bounding box, anchored at the origin. *)
Definition mainContainer_of (grid : IMatrixGrid) (sizing : IPaperLayoutSizing) : ISquareSize :=
  mkSize (width (outerSize sizing) * column grid) (height (outerSize sizing) * row grid).

Definition _generateLayoutMatrix (grid : IMatrixGrid) (sizing : IPaperLayoutSizing)
    : result ILayoutResult :=
  _validateGrid grid ;;;
  mainMatrix <- mkMatrix (row grid) (column grid) ;;
  main <- _buildRectMatrix mainMatrix sizing false None ;;
  let mainContainer := mainContainer_of grid sizing in
  remainer <- _calculateRemain (source sizing) mainContainer
                 (innerSize sizing) (marginSize sizing) ;;
  match remainer with
  | Some (g, start) =>
      if (0 <? row g) && (0 <? column g) then
        remainMatrix <- mkMatrix (row g) (column g) ;;
        remain <- _buildRectMatrix remainMatrix sizing true (Some start) ;;
        Ok (mkLayout main (Some remain))
      else Ok (mkLayout main None)
  | None => Ok (mkLayout main None)
  end.

(** [Object.keys(layout)] mapped to the values: [main], then [remain] when
    the key is present. *)
Definition layout_values (l : ILayoutResult) : list (list IRectMatrixResult) :=
  main l :: match remain l with Some r => [r] | None => [] end.

(** The result of [calculate]: [Object.assign({}, layout, { total })]. *)
Record CalcResult := mkCalc {
  layout : ILayoutResult;
  total : Z
}.

(** The instance fields read by [calculate]. *)
Record Calculator := mkCalculator {
  _source : ISquareSize;
  _target : ISquareSize;
  _margin : ISquareSize;
  _useInline : bool
}.

(** The [innerSize], [outerSize] and [marginSize] of [calculate]: the target
    and margin as they lie in the chosen orientation. *)
Definition sizing_of (self : Calculator) : IPaperLayoutSizing :=
  let t := _target self in
  let m := _margin self in
  let inl := _useInline self in
  let innerSize := mkSize (if inl then width t else height t)
                          (if inl then height t else width t) in
  let outerSize := mkSize (if inl then width t + 2 * width m else height t + 2 * height m)
                          (if inl then height t + 2 * height m else width t + 2 * width m) in
  let marginSize := mkSize (if inl then width m else height m)
                           (if inl then height m else width m) in
  mkSizing (_source self) outerSize innerSize marginSize.

(** The primary grid of [calculate]. *)
Definition primaryGrid (self : Calculator) : result IMatrixGrid :=
  if _useInline self then _inlineCut (_source self) (_target self) (_margin self)
  else _crossCut (_source self) (_target self) (_margin self).

(** [Object.keys(layout).forEach(key => total += layout[key].length)] *)
Definition count_total (l : ILayoutResult) : Z :=
  fold_left (fun acc v => acc + Z.of_nat (length v)) (layout_values l) 0.

Definition calculate (self : Calculator) : result CalcResult :=
  grid <- primaryGrid self ;;
  _validateGrid grid ;;;
  let sizing := sizing_of self in
  layout <- _generateLayoutMatrix grid sizing ;;
  let total := count_total layout in
  Ok (mkCalc layout total).

(** ** Construction and input validation *)

(** A JavaScript number as the validation code sees it: a value or [NaN]
    (what [isNaN] reports for [undefined] or a non-numeric string). *)
Inductive jsnum := JNum (z : Z) | JNaN.

Definition isNaN (n : jsnum) : bool := match n with JNaN => true | JNum _ => false end.

Definition jadd (a b : jsnum) : jsnum :=
  match a, b with JNum p, JNum q => JNum (p + q) | _, _ => JNaN end.

Definition jmul (a b : jsnum) : jsnum :=
  match a, b with JNum p, JNum q => JNum (p * q) | _, _ => JNaN end.

(** Comparisons involving [NaN] are false. *)
Definition jgt (a b : jsnum) : bool :=
  match a, b with JNum p, JNum q => q <? p | _, _ => false end.
Definition jle (a b : jsnum) : bool :=
  match a, b with JNum p, JNum q => p <=? q | _, _ => false end.
Definition jlt (a b : jsnum) : bool :=
  match a, b with JNum p, JNum q => p <? q | _, _ => false end.

(** [!n]: true for [0] and [NaN]. *)
Definition jfalsy (n : jsnum) : bool :=
  match n with JNum p => p =? 0 | JNaN => true end.

Record RawSize := mkRaw { rw : jsnum; rh : jsnum }.

Definition too_large (target source margin : RawSize) : bool :=
  jgt (jadd (rw target) (jmul (JNum 2) (rw margin))) (rw source)
  || jgt (jadd (rh target) (jmul (JNum 2) (rh margin))) (rh source).

(** [_validateTarget]; its first test [!source && !target] never holds for
    the size objects passed to the constructor. *)
Definition _validateTarget (target source margin : RawSize) : result unit :=
  throw_if (isNaN (rw source) || isNaN (rh source) || isNaN (rw target) || isNaN (rh target))
           MissingInput ;;;
  throw_if (jle (rw target) (JNum 0) || jle (rh target) (JNum 0)) TargetNotPositive ;;;
  throw_if (too_large target source margin) TargetTooLarge.

Definition _validateSource (source : RawSize) : result unit :=
  throw_if (isNaN (rw source) || isNaN (rh source)) SourceNaN ;;;
  throw_if (jle (rw source) (JNum 0) || jle (rh source) (JNum 0)) SourceNotPositive.

Definition _validateMargin (margin source target : RawSize) : result unit :=
  throw_if (jlt (rw margin) (JNum 0) || jlt (rh margin) (JNum 0)) MarginNegative ;;;
  throw_if (too_large target source margin) MarginTooLarge.

(** The instance as the constructor leaves it, before any calculation. *)
Record RawCalculator := mkRawCalculator {
  raw_source : RawSize;
  raw_target : RawSize;
  raw_margin : RawSize;
  raw_useInline : bool
}.

(** [new CalculatorLayoutClass(_source, _target, _margin, _useInline)] *)
Definition construct (source target margin : RawSize) (useInline : bool)
    : result RawCalculator :=
  _validateTarget target source margin ;;;
  _validateSource source ;;;
  _validateMargin margin source target ;;;
  let margin' := if jfalsy (rw margin) && jfalsy (rh margin)
                 then mkRaw (JNum 0) (JNum 0) else margin in
  Ok (mkRawCalculator source target margin' useInline).

(** A numeric size. *)
Definition raw_of (s : ISquareSize) : RawSize := mkRaw (JNum (width s)) (JNum (height s)).

(** The inputs the constructor accepts, on numeric sizes. *)
Definition valid (self : Calculator) : Prop :=
  let s := _source self in let t := _target self in let m := _margin self in
  0 < width s /\ 0 < height s /\ 0 < width t /\ 0 < height t /\
  0 <= width m /\ 0 <= height m /\
  width t + 2 * width m <= width s /\ height t + 2 * height m <= height s.

Definition scB := mkCalculator (mkSize 65 100) (mkSize 43 12) (mkSize 1 1) true.

(** ** Configuration (the [config] setter and [_validateConfig]) *)

(** The drawing code computes with decimal numbers ([* 1.5], [* 0.1]);
    there they are modelled as rationals [Q], and layout dimensions stay
    integers scaled by [inject_Z].  The values [_validateConfig] tests
    ([lineWidth], [ratio]) are JavaScript numbers, modelled as Rocq's
    primitive IEEE-754 binary64 floats, [NaN] included; a decimal literal
    such as [0.18] denotes the nearest double, as in JavaScript. *)
From Stdlib Require Import QArith Qround Lqa String.
From Stdlib Require Import PrimFloat SpecFloat FloatOps FloatAxioms.
Set Warnings "-inexact-float".
(* [String] also has a [length] and a [concat]: the list ones are meant. *)
Import List ListNotations.

(** [ILayoutConfig.fonts] *)
Record IFonts := mkFonts {
  fsize : option Q;
  funit : option String.string;
  ffamily : option String.string
}.

(** [ILayoutConfig]: an absent key is [None] (a key holding [undefined] is
    not modelled). *)
Record ILayoutConfig := mkConfig {
  fonts : option IFonts;
  textColor : option String.string;
  lineWidth : option float;
  strokeColor : option String.string;
  paperColor : option String.string;
  mainOuterColor : option String.string;
  mainInnerColor : option String.string;
  remainOuterColor : option String.string;
  remainInnerColor : option String.string;
  ratio : option float
}.

(** The default configuration set by the constructor. *)
Definition default_config : ILayoutConfig :=
  mkConfig (Some (mkFonts (Some 3%Q) (Some "px"%string) (Some "sans-serif"%string)))
           (Some "rgb(85, 85, 85)"%string) (Some 0.18%float)
           (Some "rgb(85, 85, 85)"%string) (Some "rgb(233, 229, 229)"%string)
           (Some "skyblue"%string) (Some "lightgreen"%string)
           (Some "lightsalmon"%string) (Some "lightcoral"%string)
           (Some 28.346%float).

(** The errors of [_validateConfig], one per [throw] site. *)
Inductive configErr :=
  | LineWidthNotPositive
  | InvalidColor (key : String.string)
  | RatioNaN.

(** Error passing for [_validateConfig]. *)
Definition sbind {E A B} (m : E + A) (k : A -> E + B) : E + B :=
  match m with inl e => inl e | inr a => k a end.

(** A JavaScript string is truthy when it is not empty. *)
Definition str_truthy (s : String.string) : bool :=
  negb (String.eqb s String.EmptyString).

(** [Object.keys(config).forEach(key => this._config[key] = config[key])]:
    every key of [ILayoutConfig] is present in [this._config] from the
    constructor on, so each provided key is assigned. *)
Definition assign {A} (provided current : option A) : option A :=
  match provided with Some v => Some v | None => current end.

Definition merge_config (current config : ILayoutConfig) : ILayoutConfig :=
  mkConfig (assign (fonts config) (fonts current))
           (assign (textColor config) (textColor current))
           (assign (lineWidth config) (lineWidth current))
           (assign (strokeColor config) (strokeColor current))
           (assign (paperColor config) (paperColor current))
           (assign (mainOuterColor config) (mainOuterColor current))
           (assign (mainInnerColor config) (mainInnerColor current))
           (assign (remainOuterColor config) (remainOuterColor current))
           (assign (remainInnerColor config) (remainInnerColor current))
           (assign (ratio config) (ratio current)).

(** [!n] on a number: true for [0], [-0] and [NaN]. *)
Definition js_falsy (n : float) : bool := (n =? 0)%float || is_nan n.

(** [if (config.lineWidth && config.lineWidth <= 0) throw ...]: a
    [lineWidth] of [0] or [NaN] is falsy and passes. *)
Definition check_lineWidth (lw : option float) : configErr + unit :=
  match lw with
  | Some lw => if negb (js_falsy lw) && (lw <=? 0)%float then inl LineWidthNotPositive else inr tt
  | None => inr tt
  end.

Section ConfigValidation.

(** [_isValidColor]: the browser's CSS color parser. *)
Variable isValidColor : String.string -> bool.

(** [if (config.key && !this._isValidColor(config.key)) throw ...] *)
Definition check_color (key : String.string) (c : option String.string)
    : configErr + unit :=
  match c with
  | Some s => if str_truthy s && negb (isValidColor s) then inl (InvalidColor key) else inr tt
  | None => inr tt
  end.

(** [_validateConfig]; its value is whether [console.warn] is called
    ([Number(config.ratio) > 28.346]).  [isNaN(undefined)] holds, so an
    absent [ratio] throws. *)
Definition _validateConfig (config : ILayoutConfig) : configErr + bool :=
  sbind (check_lineWidth (lineWidth config)) (fun _ =>
  sbind (check_color "paperColor" (paperColor config)) (fun _ =>
  sbind (check_color "strokeColor" (strokeColor config)) (fun _ =>
  sbind (check_color "textColor" (textColor config)) (fun _ =>
  sbind (check_color "mainOuterColor" (mainOuterColor config)) (fun _ =>
  sbind (check_color "mainInnerColor" (mainInnerColor config)) (fun _ =>
  sbind (check_color "remainOuterColor" (remainOuterColor config)) (fun _ =>
  sbind (check_color "remainInnerColor" (remainInnerColor config)) (fun _ =>
  match ratio config with
  | None => inl RatioNaN
  | Some r => if is_nan r then inl RatioNaN else inr (28.346 <? r)%float
  end)))))))).

(** The [config] setter: validate, then assign the provided keys. *)
Definition set_config (current config : ILayoutConfig) : configErr + ILayoutConfig :=
  sbind (_validateConfig config) (fun _ => inr (merge_config current config)).

End ConfigValidation.

(** ** Drawing ([_calculateFontSize], [drawSvg], [drawCanvas]) *)

(** The fields of [this.config] the drawing methods read, each present
    (as in the default configuration). *)
Record DrawConfig := mkDrawConfig {
  d_fontSize : Q;
  d_fontUnit : option String.string;
  d_fontFamily : option String.string;
  d_textColor : String.string;
  d_lineWidth : Q;
  d_strokeColor : String.string;
  d_paperColor : String.string;
  d_mainOuterColor : String.string;
  d_mainInnerColor : String.string;
  d_remainOuterColor : String.string;
  d_remainInnerColor : String.string;
  d_ratio : Q
}.

Definition default_draw_config : DrawConfig :=
  mkDrawConfig 3 (Some "px"%string) (Some "sans-serif"%string) "rgb(85, 85, 85)"%string
               (18 # 100) "rgb(85, 85, 85)"%string "rgb(233, 229, 229)"%string
               "skyblue"%string "lightgreen"%string "lightsalmon"%string "lightcoral"%string
               (28346 # 1000).

(** [Math.min] and [Math.max] on two numbers. *)
Definition math_min (a b : Q) : Q := if Qle_bool a b then a else b.
Definition math_max (a b : Q) : Q := if Qle_bool b a then a else b.

Definition _calculateFontSize (cfg : DrawConfig) (innerRectWidth innerRectHeight : Q)
    (useRatio : bool) : Q :=
  let ratio := d_ratio cfg in
  let minFontSize := d_fontSize cfg in
  let maxFontSize := d_fontSize cfg * (3 # 2) in
  let availableSpace := math_min innerRectWidth innerRectHeight in
  let padding := availableSpace * (1 # 10) in
  let usableSpace := availableSpace - padding * 2 in
  let dynamicFontSize := usableSpace / 2 in
  let dynamicFontSize := math_max minFontSize (math_min maxFontSize dynamicFontSize) in
  if useRatio then dynamicFontSize * ratio else dynamicFontSize.

(** A layout dimension multiplied by [ratio]. *)
Definition scale (ratio : Q) (z : Z) : Q := inject_Z z * ratio.

(** [for (let i = 0; i < rectangles.length; i++) f(i, rectangles[i])] *)
Fixpoint map_index {A B} (f : Z -> A -> B) (i : Z) (l : list A) : list B :=
  match l with
  | [] => []
  | a :: rest => f i a :: map_index f (i + 1) rest
  end.

(** An SVG [rect]: position, size, [fill], and [stroke] with its
    [stroke-width] in points when set. *)
Record SvgRect := mkSvgRect {
  sx : Q; sy : Q; swidth : Q; sheight : Q;
  sfill : String.string;
  sstroke : option (String.string * Q)
}.

(** An SVG [text]: position, [font-size], [font-family], [fill] and its
    number. *)
Record SvgText := mkSvgText {
  tx : Q; ty : Q;
  tfontSize : Q;
  tfontFamily : option String.string;
  tfill : String.string;
  tcontent : Z
}.

(** A [g] with id [cutting-block-<gid>] holding the outer rect, the inner
    rect and the text. *)
Record SvgGroup := mkSvgGroup {
  gid : Z;
  gouter : SvgRect;
  ginner : SvgRect;
  gtext : SvgText
}.

(** The body of the loop of [_plottingSvgRectLayout]. *)
Definition svg_block (cfg : DrawConfig) (startIndex : Z) (outerColor innerColor : String.string)
    (i : Z) (r : IRectMatrixResult) : SvgGroup :=
  let ratio := d_ratio cfg in
  let outerRect := outer r in
  let outerRectWidth := scale ratio (rwidth outerRect) in
  let outerRectHeight := scale ratio (rheight outerRect) in
  let outerRectX := scale ratio (rx outerRect) in
  let outerRectY := scale ratio (ry outerRect) in
  let innerRect := inner r in
  let innerRectWidth := scale ratio (rwidth innerRect) in
  let innerRectHeight := scale ratio (rheight innerRect) in
  let innerRectX := scale ratio (rx innerRect) in
  let innerRectY := scale ratio (ry innerRect) in
  let fontSize := _calculateFontSize cfg innerRectWidth innerRectHeight false in
  let textCoordinateX := innerRectX + innerRectWidth / 2 in
  let textCoordinateY := innerRectY + innerRectHeight / 2 in
  mkSvgGroup (startIndex + i + 1)
    (mkSvgRect outerRectX outerRectY outerRectWidth outerRectHeight outerColor
               (Some (d_strokeColor cfg, d_lineWidth cfg * 4)))
    (mkSvgRect innerRectX innerRectY innerRectWidth innerRectHeight innerColor None)
    (mkSvgText textCoordinateX textCoordinateY (fontSize * ratio) (d_fontFamily cfg)
               (d_textColor cfg) (startIndex + i + 1)).

(** [_plottingSvgRectLayout]: the groups it appends, in order. *)
Definition _plottingSvgRectLayout (cfg : DrawConfig) (rectangles : list IRectMatrixResult)
    (startIndex : Z) (outerColor innerColor : String.string) : list SvgGroup :=
  map_index (svg_block cfg startIndex outerColor innerColor) 0 rectangles.

(** The [svg] element: its [width] and [height], and the children of its
    single group: the paper rect, then the blocks. *)
Record SvgDoc := mkSvgDoc {
  svgWidth : Q;
  svgHeight : Q;
  paper : SvgRect;
  blocks : list SvgGroup
}.

(** [throw new Error(`Error in drawing process ${error}`)] *)
Inductive drawErr := DrawingProcess (cause : err).

(** [drawSvg(false)]: the element before serialization.  Appending
    [mainGroup] a second time when [remain] is set moves it, so the element
    has one group. *)
Definition drawSvg (self : Calculator) (cfg : DrawConfig) : drawErr + SvgDoc :=
  let ratio := d_ratio cfg in
  let width := scale ratio (width (_source self)) in
  let height := scale ratio (height (_source self)) in
  let svgPaperRect := mkSvgRect 0 0 width height (d_paperColor cfg)
                                (Some (d_strokeColor cfg, d_lineWidth cfg * (7 # 2))) in
  match calculate self with
  | Err e => inl (DrawingProcess e)
  | Ok calculation =>
      let mainRects := main (layout calculation) in
      let mainBlocks := _plottingSvgRectLayout cfg mainRects 0
                          (d_mainOuterColor cfg) (d_mainInnerColor cfg) in
      let remainBlocks :=
        match remain (layout calculation) with
        | Some remainRects =>
            _plottingSvgRectLayout cfg remainRects (Z.of_nat (length mainRects))
              (d_remainOuterColor cfg) (d_remainInnerColor cfg)
        | None => []
        end in
      inr (mkSvgDoc width height svgPaperRect (mainBlocks ++ remainBlocks))
  end.

(** The calls made on the [2d] context of the canvas. *)
Inductive CanvasOp :=
  | SetFillStyle (color : String.string)
  | BeginPath
  | RectPath (x y w h : Q)
  | Fill
  | SetStrokeStyle (color : String.string)
  | SetLineWidth (w : Q)
  | Stroke
  | Save
  | Restore
  | SetFont (size : Q) (unit family : option String.string)
  | SetTextAlignCenter
  | SetTextBaselineMiddle
  | FillText (text : Z) (x y : Q).

(** [a > 0] and [a === 0] on numbers. *)
Definition qpos (a : Q) : bool := negb (Qle_bool a 0).
Definition qzero (a : Q) : bool := Qeq_bool a 0.

(** The body of the first loop of [_plottingCanvasRectLayout]. *)
Definition canvas_outer (cfg : DrawConfig) (outerColor : String.string)
    (r : IRectMatrixResult) : list CanvasOp :=
  let ratio := d_ratio cfg in
  let outerRect := outer r in
  [SetFillStyle outerColor; BeginPath;
   RectPath (scale ratio (rx outerRect)) (scale ratio (ry outerRect))
            (scale ratio (rwidth outerRect)) (scale ratio (rheight outerRect));
   Fill; SetStrokeStyle (d_strokeColor cfg); SetLineWidth (d_lineWidth cfg * ratio);
   Stroke; Save].

(** The body of the second loop; [console.log] is not modelled. *)
Definition canvas_inner (cfg : DrawConfig) (margin : ISquareSize) (startIndex : Z)
    (innerColor : String.string) (i : Z) (r : IRectMatrixResult) : list CanvasOp :=
  let ratio := d_ratio cfg in
  let marginWidth := scale ratio (width margin) in
  let marginHeight := scale ratio (height margin) in
  let lineWidth := d_lineWidth cfg * ratio in
  let innerRect := inner r in
  let innerRectWidth := scale ratio (rwidth innerRect) in
  let innerRectHeight := scale ratio (rheight innerRect) in
  let innerRectX := scale ratio (rx innerRect) in
  let innerRectY := scale ratio (ry innerRect) in
  let fontSize := _calculateFontSize cfg innerRectWidth innerRectHeight true in
  let textCoordinateX := innerRectX + innerRectWidth / 2 in
  let textCoordinateY := innerRectY + innerRectHeight / 2 in
  [SetFillStyle innerColor; BeginPath;
   RectPath innerRectX innerRectY innerRectWidth innerRectHeight; Fill] ++
  (if qzero marginHeight && qzero marginWidth
   then [SetLineWidth lineWidth; SetStrokeStyle (d_strokeColor cfg); Stroke] else []) ++
  [SetFont fontSize (d_fontUnit cfg) (d_fontFamily cfg); SetTextAlignCenter;
   SetTextBaselineMiddle; SetFillStyle (d_textColor cfg);
   FillText (startIndex + i + 1) textCoordinateX textCoordinateY; Save].

(** [_plottingCanvasRectLayout]; [margin] is [this._margin]. *)
Definition _plottingCanvasRectLayout (cfg : DrawConfig) (margin : ISquareSize)
    (rectangles : list IRectMatrixResult) (startIndex : Z)
    (outerColor innerColor : String.string) : list CanvasOp :=
  let ratio := d_ratio cfg in
  let marginWidth := scale ratio (width margin) in
  let marginHeight := scale ratio (height margin) in
  (if qpos marginHeight && qpos marginWidth
   then flat_map (canvas_outer cfg outerColor) rectangles else []) ++
  concat (map_index (canvas_inner cfg margin startIndex innerColor) 0 rectangles).

(** [drawCanvas(false)]: the calls made on the context.  The [alert] for a
    ratio above 28.346 and [toDataURL] are not modelled. *)
Definition drawCanvas (self : Calculator) (cfg : DrawConfig) : drawErr + list CanvasOp :=
  let ratio := d_ratio cfg in
  let width := scale ratio (width (_source self)) in
  let height := scale ratio (height (_source self)) in
  let lineWidth := d_lineWidth cfg * ratio in
  let paperOps := [SetLineWidth lineWidth; SetFillStyle (d_paperColor cfg); BeginPath;
                   RectPath 0 0 width height; Fill; SetStrokeStyle (d_strokeColor cfg);
                   SetLineWidth lineWidth; Stroke; Save] in
  match calculate self with
  | Err e => inl (DrawingProcess e)
  | Ok calculation =>
      let mainRects := main (layout calculation) in
      let mainOps := _plottingCanvasRectLayout cfg (_margin self) mainRects 0
                       (d_mainOuterColor cfg) (d_mainInnerColor cfg) in
      let remainOps :=
        match remain (layout calculation) with
        | Some remainRects =>
            _plottingCanvasRectLayout cfg (_margin self) remainRects
              (Z.of_nat (length mainRects)) (d_remainOuterColor cfg) (d_remainInnerColor cfg)
        | None => []
        end in
      inr (paperOps ++ mainOps ++ remainOps ++ [Restore])
  end.

Open Scope Z_scope.

(** ** The layout core on JavaScript numbers

    The layout code receives its sizes as JavaScript numbers: IEEE-754
    binary64 doubles, with [+], [-], [*], [/] rounded to nearest even and
    comparisons false on [NaN].  The module [F64] embeds the layout core
    again over Rocq's primitive 64-bit floats, whose operations are those
    of IEEE-754 binary64, with JavaScript's [%] and [Array(n)] written out. *)

Module F64.

Open Scope float_scope.

(** JavaScript's [n % d] on numbers: [NaN] when [n] is infinite, [d] is
    zero or either is [NaN]; [n] when [n] is zero or [d] infinite;
    otherwise the remainder of the division truncated towards zero, which
    is exactly representable, with the sign of [n]. *)
Definition js_rem (n d : float) : float :=
  match Prim2SF n, Prim2SF d with
  | S754_nan, _ | _, S754_nan | S754_infinity _, _ | _, S754_zero _ => nan
  | S754_zero _, _ | S754_finite _ _ _, S754_infinity _ => n
  | S754_finite sn mn en, S754_finite _ md ed =>
      let e := Z.min en ed in
      let r := Z.rem (Zpos mn * 2 ^ (en - e)) (Zpos md * 2 ^ (ed - e)) in
      if (r =? 0)%Z then (if sn then -0 else 0)
      else SF2Prim (binary_normalize prec emax (if sn then - r else r)%Z e false)
  end.

(** A length as a JavaScript number; the lengths met here are below
    [2^53], where the conversion is exact. *)
Definition of_nat (n : nat) : float :=
  SF2Prim (binary_normalize prec emax (Z.of_nat n) 0 false).

(** The value of a finite double as a rational number (a non-finite one is
    sent to [0]). *)
Definition to_Q (f : float) : Q :=
  match Prim2SF f with
  | S754_finite s m e =>
      let q := if (0 <=? e)%Z then inject_Z (Zpos m * 2 ^ e)
               else (Zpos m # Z.to_pos (2 ^ (- e))) in
      if s then Qopp q else q
  | _ => 0%Q
  end.

Record ISquareSize := mkSize { width : float; height : float }.
Record ILayoutCoords := mkCoords { x : float; y : float }.
Record IRectPlotConfig := mkRect { rx : float; ry : float; rwidth : float; rheight : float }.
Record IMatrixGrid := mkGrid { row : float; column : float }.
Record IRectMatrixResult := mkPlacement {
  inner : IRectPlotConfig;
  outer : IRectPlotConfig;
  gridRow : float;
  gridColumn : float
}.
Record IPaperLayoutSizing := mkSizing {
  source : ISquareSize;
  outerSize : ISquareSize;
  innerSize : ISquareSize;
  marginSize : ISquareSize
}.

Definition _validateDivisionByZero (dividend : float) : result unit :=
  throw_if (dividend =? 0) DivisionByZero.

Definition _validateGrid (grid : IMatrixGrid) : result unit :=
  throw_if (row grid <=? 0) EmptyGridRow ;;;
  throw_if (column grid <=? 0) EmptyGridColumn.

Definition _validateRemainXY (remainX remainY : float) : result unit :=
  throw_if (remainX <? 0) NegativeRemainX ;;;
  throw_if (remainY <? 0) NegativeRemainY.

(** [Array(n)] with a number [n]: an array of length [n] when
    [ToUint32(n)] is [n], that is [n] is an integer in [[0, 2^32)];
    otherwise a [RangeError] ([NaN], infinities, fractions, negative
    numbers, [2^32] and beyond). *)
Definition js_array_length (n : float) : result nat :=
  match Prim2SF n with
  | S754_zero _ => Ok 0%nat
  | S754_finite false m e =>
      let v := if (0 <=? e)%Z then Some (Zpos m * 2 ^ e)%Z
               else if (Zpos m mod 2 ^ (- e) =? 0)%Z then Some (Zpos m / 2 ^ (- e))%Z
               else None in
      match v with
      | Some v => if (v <? 2 ^ 32)%Z then Ok (Z.to_nat v) else Err InvalidArrayLength
      | None => Err InvalidArrayLength
      end
  | _ => Err InvalidArrayLength
  end.

(** [Array(n).fill(v)] *)
Definition js_array_fill {A} (n : float) (v : A) : result (list A) :=
  len <- js_array_length n ;;
  Ok (repeat v len).

(** [Array(rows).fill(Array(columns).fill({...}))]: [Array(rows)] is
    evaluated first, then the argument of [fill]. *)
Definition mkMatrix (rows columns : float) : result matrix :=
  len <- js_array_length rows ;;
  cells <- js_array_fill columns tt ;;
  Ok (repeat cells len).

Definition _inlineCut (source target margin : ISquareSize) : result IMatrixGrid :=
  _validateDivisionByZero (width target + 2 * width margin) ;;;
  _validateDivisionByZero (height target + 2 * height margin) ;;;
  let input := mkSize (width target + 2 * width margin)
                      (height target + 2 * height margin) in
  let remainX := js_rem (width source) (width input) in
  let remainY := js_rem (height source) (height input) in
  let column := (width source - remainX) / width input in
  let row := (height source - remainY) / height input in
  Ok (mkGrid row column).

Definition _crossCut (source target margin : ISquareSize) : result IMatrixGrid :=
  _validateDivisionByZero (width target + 2 * width margin) ;;;
  _validateDivisionByZero (height target + 2 * height margin) ;;;
  let input := mkSize (width target + 2 * width margin)
                      (height target + 2 * height margin) in
  let remainX := js_rem (width source) (height input) in
  let remainY := js_rem (height source) (width input) in
  let column := (width source - remainX) / height input in
  let row := (height source - remainY) / width input in
  Ok (mkGrid row column).

Definition start_x (start : option ILayoutCoords) : float :=
  match start with Some s => x s | None => 0 end.
Definition start_y (start : option ILayoutCoords) : float :=
  match start with Some s => y s | None => 0 end.

Definition cell (outerS innerS marginS : ISquareSize) (start : option ILayoutCoords)
    (r c : float) : IRectMatrixResult :=
  let outer := mkRect (start_x start + c * width outerS) (start_y start + r * height outerS)
                      (width outerS) (height outerS) in
  let inner := mkRect (rx outer + width marginS) (ry outer + height marginS)
                      (width innerS) (height innerS) in
  mkPlacement inner outer r c.

(** The loops, with their counters [r] and [c] as numbers ([c++]). *)
Fixpoint build_cols (f : float -> IRectMatrixResult) (c : float) (cols : list unit)
    : list IRectMatrixResult :=
  match cols with
  | [] => []
  | _ :: rest => f c :: build_cols f (c + 1) rest
  end.

Fixpoint build_rows (f : float -> float -> IRectMatrixResult) (r : float) (rows : matrix)
    : list IRectMatrixResult :=
  match rows with
  | [] => []
  | cols :: rest => build_cols (f r) 0 cols ++ build_rows f (r + 1) rest
  end.

Definition swap_if (reverse : bool) (s : ISquareSize) : ISquareSize :=
  if reverse then mkSize (height s) (width s) else s.

(** [results.push] throws a [RangeError] once [results] holds [2^32 - 1]
    elements, the largest array length. *)
Definition _buildRectMatrix (rectMatrixArray : matrix) (sizing : IPaperLayoutSizing)
    (reverse : bool) (start : option ILayoutCoords) : result (list IRectMatrixResult) :=
  _validateRectMatrixArray rectMatrixArray ;;;
  let outerS := swap_if reverse (outerSize sizing) in
  let innerS := swap_if reverse (innerSize sizing) in
  let marginS := swap_if reverse (marginSize sizing) in
  let results := build_rows (cell outerS innerS marginS start) 0 rectMatrixArray in
  throw_if (2 ^ 32 - 1 <? Z.of_nat (length results))%Z InvalidArrayLength ;;;
  Ok results.

Definition _calculateRemain (source container target margin : ISquareSize)
    : result (option (IMatrixGrid * ILayoutCoords)) :=
  let remainX := width source - width container in
  let remainContainerX := mkSize remainX (height source) in
  let remainY := height source - height container in
  let remainContainerY := mkSize (width source) remainY in
  _validateRemainXY remainX remainY ;;;
  let condition1 := width target <=? remainY in
  let condition2 := height target <=? remainX in
  if condition2 then
    grid <- _crossCut remainContainerX target margin ;;
    Ok (Some (grid, mkCoords (width container) 0))
  else if condition1 then
    grid <- _crossCut remainContainerY target margin ;;
    Ok (Some (grid, mkCoords 0 (height container)))
  else Ok None.

Record ILayoutResult := mkLayout {
  main : list IRectMatrixResult;
  remain : option (list IRectMatrixResult)
}.

Definition mainContainer_of (grid : IMatrixGrid) (sizing : IPaperLayoutSizing) : ISquareSize :=
  mkSize (width (outerSize sizing) * column grid) (height (outerSize sizing) * row grid).

Definition _generateLayoutMatrix (grid : IMatrixGrid) (sizing : IPaperLayoutSizing)
    : result ILayoutResult :=
  _validateGrid grid ;;;
  mainMatrix <- mkMatrix (row grid) (column grid) ;;
  main <- _buildRectMatrix mainMatrix sizing false None ;;
  let mainContainer := mainContainer_of grid sizing in
  remainer <- _calculateRemain (source sizing) mainContainer
                 (innerSize sizing) (marginSize sizing) ;;
  match remainer with
  | Some (g, start) =>
      if (0 <? row g) && (0 <? column g) then
        remainMatrix <- mkMatrix (row g) (column g) ;;
        remain <- _buildRectMatrix remainMatrix sizing true (Some start) ;;
        Ok (mkLayout main (Some remain))
      else Ok (mkLayout main None)
  | None => Ok (mkLayout main None)
  end.

Definition layout_values (l : ILayoutResult) : list (list IRectMatrixResult) :=
  main l :: match remain l with Some r => [r] | None => [] end.

Record CalcResult := mkCalc {
  layout : ILayoutResult;
  total : float
}.

Record Calculator := mkCalculator {
  _source : ISquareSize;
  _target : ISquareSize;
  _margin : ISquareSize;
  _useInline : bool
}.

Definition sizing_of (self : Calculator) : IPaperLayoutSizing :=
  let t := _target self in
  let m := _margin self in
  let inl := _useInline self in
  let innerSize := mkSize (if inl then width t else height t)
                          (if inl then height t else width t) in
  let outerSize := mkSize (if inl then width t + 2 * width m else height t + 2 * height m)
                          (if inl then height t + 2 * height m else width t + 2 * width m) in
  let marginSize := mkSize (if inl then width m else height m)
                           (if inl then height m else width m) in
  mkSizing (_source self) outerSize innerSize marginSize.

Definition primaryGrid (self : Calculator) : result IMatrixGrid :=
  if _useInline self then _inlineCut (_source self) (_target self) (_margin self)
  else _crossCut (_source self) (_target self) (_margin self).

Definition count_total (l : ILayoutResult) : float :=
  fold_left (fun acc v => acc + of_nat (length v)) (layout_values l) 0.

Definition calculate (self : Calculator) : result CalcResult :=
  grid <- primaryGrid self ;;
  _validateGrid grid ;;;
  let sizing := sizing_of self in
  layout <- _generateLayoutMatrix grid sizing ;;
  let total := count_total layout in
  Ok (mkCalc layout total).

(** The constructor's checks on numeric sizes. *)
Definition too_large (target source margin : ISquareSize) : bool :=
  (width source <? width target + 2 * width margin)
  || (height source <? height target + 2 * height margin).

Definition _validateTarget (target source margin : ISquareSize) : result unit :=
  throw_if (is_nan (width source) || is_nan (height source)
            || is_nan (width target) || is_nan (height target)) MissingInput ;;;
  throw_if ((width target <=? 0) || (height target <=? 0)) TargetNotPositive ;;;
  throw_if (too_large target source margin) TargetTooLarge.

Definition _validateSource (source : ISquareSize) : result unit :=
  throw_if (is_nan (width source) || is_nan (height source)) SourceNaN ;;;
  throw_if ((width source <=? 0) || (height source <=? 0)) SourceNotPositive.

Definition _validateMargin (margin source target : ISquareSize) : result unit :=
  throw_if ((width margin <? 0) || (height margin <? 0)) MarginNegative ;;;
  throw_if (too_large target source margin) MarginTooLarge.

Definition construct (source target margin : ISquareSize) (useInline : bool)
    : result Calculator :=
  _validateTarget target source margin ;;;
  _validateSource source ;;;
  _validateMargin margin source target ;;;
  let margin' := if js_falsy (width margin) && js_falsy (height margin)
                 then mkSize 0 0 else margin in
  Ok (mkCalculator source target margin' useInline).

End F64.

(** ** Auxiliary definitions used by the proofs *)

Ltac zbool :=
  repeat match goal with
  | H : (_ || _)%bool = false |- _ => apply orb_false_iff in H; destruct H
  | H : (_ || _)%bool = true |- _ => apply orb_true_iff in H; destruct H
  | H : (_ && _)%bool = true |- _ => apply andb_true_iff in H; destruct H
  | H : (_ <? _) = false |- _ => apply Z.ltb_ge in H
  | H : (_ <=? _) = false |- _ => apply Z.leb_gt in H
  | H : (_ =? _) = false |- _ => apply Z.eqb_neq in H
  | H : (_ <? _) = true |- _ => apply Z.ltb_lt in H
  | H : (_ <=? _) = true |- _ => apply Z.leb_le in H
  | H : (_ =? _) = true |- _ => apply Z.eqb_eq in H
  end.

(** The invalid inputs of the claim: a source or target dimension that is
    non-numeric or not positive, a negative margin dimension, or a target
    that with twice its margin exceeds the source on an axis. *)
Definition invalid_dims (source target margin : RawSize) : Prop :=
  isNaN (rw source) = true \/ isNaN (rh source) = true \/
  isNaN (rw target) = true \/ isNaN (rh target) = true \/
  (exists z, (rw source = JNum z \/ rh source = JNum z \/
              rw target = JNum z \/ rh target = JNum z) /\ z <= 0) \/
  (exists z, (rw margin = JNum z \/ rh margin = JNum z) /\ z < 0) \/
  (exists t m s, rw target = JNum t /\ rw margin = JNum m /\ rw source = JNum s /\
                 s < t + 2 * m) \/
  (exists t m s, rh target = JNum t /\ rh margin = JNum m /\ rh source = JNum s /\
                 s < t + 2 * m).

Definition rect (rows columns : nat) : matrix := repeat (repeat tt columns) rows.

(** The rows of the main grid and, when a remainder is laid out, of the
    remainder grid, rotated and anchored at the start [_calculateRemain]
    returns. *)
Definition main_of (grid : IMatrixGrid) (sizing : IPaperLayoutSizing) :=
  build_rows (cell (outerSize sizing) (innerSize sizing) (marginSize sizing) None) 0
             (rect (Z.to_nat (row grid)) (Z.to_nat (column grid))).

Definition remain_of (g : IMatrixGrid) (start : ILayoutCoords) (sizing : IPaperLayoutSizing) :=
  build_rows (cell (swap_if true (outerSize sizing)) (swap_if true (innerSize sizing))
                   (swap_if true (marginSize sizing)) (Some start)) 0
             (rect (Z.to_nat (row g)) (Z.to_nat (column g))).

Definition remainder_of (grid : IMatrixGrid) (sizing : IPaperLayoutSizing) :=
  _calculateRemain (source sizing) (mainContainer_of grid sizing)
                   (innerSize sizing) (marginSize sizing).

(** The sizing [calculate] hands to the packer: positive cells, and each
    cell is the inner size plus twice the margin. *)
Definition sizing_ok (sizing : IPaperLayoutSizing) : Prop :=
  let o := outerSize sizing in let i := innerSize sizing in let m := marginSize sizing in
  0 < width o /\ 0 < height o /\
  width i + 2 * width m = width o /\ height i + 2 * height m = height o /\
  0 < width i /\ 0 < height i /\ 0 <= width m /\ 0 <= height m /\
  0 <= width (source sizing) /\ 0 <= height (source sizing).

(** A grid that fits into the source. *)
Definition grid_fits (grid : IMatrixGrid) (sizing : IPaperLayoutSizing) : Prop :=
  0 <= row grid /\ 0 <= column grid /\
  column grid * width (outerSize sizing) <= width (source sizing) /\
  row grid * height (outerSize sizing) <= height (source sizing).

Ltac proj :=
  cbn [_source _target _margin _useInline width height outerSize innerSize marginSize
       source row column x y rx ry rwidth rheight inner outer main remain layout total
       swap_if negb] in *.

(** Modelled from the spec's words (section 4.2, [computeRemainder]) for
    comparison with [_calculateRemain]: the vertical strip is tried first,
    on the test [remainY >= target.width]; the horizontal strip second, on
    [remainX >= target.height]. *)
Definition computeRemainder_spec (source container target margin : ISquareSize)
    : result (option (IMatrixGrid * ILayoutCoords)) :=
  let remainX := width source - width container in
  let remainY := height source - height container in
  _validateRemainXY remainX remainY ;;;
  if width target <=? remainY then
    grid <- _crossCut (mkSize remainX (height source)) target margin ;;
    Ok (Some (grid, mkCoords (width container) 0))
  else if height target <=? remainX then
    grid <- _crossCut (mkSize (width source) remainY) target margin ;;
    Ok (Some (grid, mkCoords 0 (height container)))
  else Ok None.

(** The relation the claim C4 states between a placement, a target size
    [t] and a margin [m]. *)
Definition placement_fits (t m : ISquareSize) (p : IRectMatrixResult) : Prop :=
  rx (inner p) = rx (outer p) + width m /\ ry (inner p) = ry (outer p) + height m /\
  rwidth (inner p) = width t /\ rheight (inner p) = height t /\
  rwidth (outer p) = width t + 2 * width m /\ rheight (outer p) = height t + 2 * height m.

(** A color key of a configuration that [_validateConfig] lets through:
    absent, empty, or accepted by the color parser. *)
Definition color_ok (isValidColor : String.string -> bool) (c : option String.string) : Prop :=
  forall s, c = Some s -> s <> String.EmptyString -> isValidColor s = true.

(** The numbers [1], [2], ..., [n]. *)
Definition labels (n : Z) : list Z := map Z.of_nat (seq 1 (Z.to_nat n)).

(** The texts drawn by [fillText], in order. *)
Fixpoint fill_texts (ops : list CanvasOp) : list Z :=
  match ops with
  | [] => []
  | FillText t _ _ :: rest => t :: fill_texts rest
  | _ :: rest => fill_texts rest
  end.

(** The font sizes set on the canvas context, in order. *)
Fixpoint font_sizes (ops : list CanvasOp) : list Q :=
  match ops with
  | [] => []
  | SetFont size _ _ :: rest => size :: font_sizes rest
  | _ :: rest => font_sizes rest
  end.

(** The remainder [_generateLayoutMatrix] computes after the main grid
    [g], on numbers. *)
Definition f64_remainder_of (g : F64.IMatrixGrid) (sz : F64.IPaperLayoutSizing) :=
  F64._calculateRemain (F64.source sz) (F64.mainContainer_of g sz) (F64.innerSize sz)
                       (F64.marginSize sz).

(** [calculate] on numbers when the remainder is not laid out: the main
    grid [g] alone, [remain] absent. *)
Definition f64_main_only (self : F64.Calculator) (g : F64.IMatrixGrid) : result F64.CalcResult :=
  F64._validateGrid g ;;;
  m <- F64.mkMatrix (F64.row g) (F64.column g) ;;
  main <- F64._buildRectMatrix m (F64.sizing_of self) false None ;;
  let l := F64.mkLayout main None in
  Ok (F64.mkCalc l (F64.count_total l)).

(** The errors of [_validateGrid], the [EmptyGridError]s. *)
Definition grid_err (e : err) : bool :=
  match e with EmptyGridRow | EmptyGridColumn => true | _ => false end.

(** The errors of [_validateRectMatrixArray]. *)
Definition rect_err (e : err) : bool :=
  match e with EmptyRectMatrixArray | EmptyRectMatrixRow => true | _ => false end.

(** A computation that throws none of the errors [bad] selects. *)
Definition avoids {A} (bad : err -> bool) (r : result A) : Prop :=
  forall e, r = Err e -> bad e = false.

(** Two rectangles of doubles overlap: their intersection, computed on the
    exact values, has positive area. *)
Definition f64_overlap (a b : F64.IRectPlotConfig) : Prop :=
  (F64.to_Q (F64.rx a) < F64.to_Q (F64.rx b) + F64.to_Q (F64.rwidth b))%Q /\
  (F64.to_Q (F64.rx b) < F64.to_Q (F64.rx a) + F64.to_Q (F64.rwidth a))%Q /\
  (F64.to_Q (F64.ry a) < F64.to_Q (F64.ry b) + F64.to_Q (F64.rheight b))%Q /\
  (F64.to_Q (F64.ry b) < F64.to_Q (F64.ry a) + F64.to_Q (F64.rheight a))%Q.

(** ** Lemmas about the error monad and the validations *)

Lemma bind_ok {A B} (m : result A) (k : A -> result B) (b : B) :
  bind m k = Ok b -> exists a, m = Ok a /\ k a = Ok b.
Proof. destruct m; simpl; [eauto | discriminate]. Qed.

Lemma construct_numeric_ok s t m inl :
  (exists c, construct (raw_of s) (raw_of t) (raw_of m) inl = Ok c) <->
  valid (mkCalculator s t m inl).
Proof.
  destruct s as [sw sh], t as [tw th], m as [mw mh].
  unfold construct, _validateTarget, _validateSource, _validateMargin, too_large,
    valid, raw_of; cbn [rw rh width height _source _target _margin isNaN jadd jmul jgt jle jlt orb].
  split.
  - intros [c H].
    repeat match type of H with
    | context [throw_if ?b ?e] =>
        destruct b eqn:?; cbn [throw_if bind] in H; [discriminate|]
    end.
    zbool. lia.
  - intros Hv.
    repeat match goal with
    | |- context [throw_if ?b ?e] =>
        destruct b eqn:?; cbn [throw_if bind]; [exfalso; zbool; lia|]
    end.
    eexists; reflexivity.
Qed.

(** ** C8: invalid dimensions are refused by the constructor *)

(** C8: every such input makes the constructor throw, so no instance exists
    on which a layout could be computed. *)
Theorem construct_rejects_invalid (source target margin : RawSize) (useInline : bool) :
  invalid_dims source target margin ->
  exists e, construct source target margin useInline = Err e.
Proof.
  intros Hinv.
  destruct (construct source target margin useInline) as [c|e] eqn:E; [exfalso | eauto].
  destruct source as [[sw|] [sh|]], target as [[tw|] [th|]], margin as [[mw|] [mh|]];
    unfold construct, _validateTarget, _validateSource, _validateMargin, too_large in E;
    cbn [rw rh isNaN jadd jmul jgt jle jlt orb] in E;
    repeat match type of E with
    | context [throw_if ?b ?e] =>
        destruct b eqn:?; cbn [throw_if bind] in E; [discriminate|]
    end;
    zbool; unfold invalid_dims in Hinv; cbn [rw rh isNaN] in Hinv;
    repeat match goal with
    | H : _ \/ _ |- _ => destruct H
    | H : exists _, _ |- _ => destruct H
    | H : _ /\ _ |- _ => destruct H
    | H : JNum _ = JNum _ |- _ => injection H as H; subst
    | H : JNum _ = JNaN |- _ => discriminate H
    | H : JNaN = JNum _ |- _ => discriminate H
    | H : false = true |- _ => discriminate H
    end; try lia.
Qed.

Lemma construct_rejects_invalid_witness :
  invalid_dims (mkRaw (JNum 65) (JNum 100)) (mkRaw (JNum 43) (JNum 12))
               (mkRaw (JNum (-1)) (JNum 1)) /\
  exists e, construct (mkRaw (JNum 65) (JNum 100)) (mkRaw (JNum 43) (JNum 12))
                      (mkRaw (JNum (-1)) (JNum 1)) true = Err e.
Proof.
  assert (H : invalid_dims (mkRaw (JNum 65) (JNum 100)) (mkRaw (JNum 43) (JNum 12))
                           (mkRaw (JNum (-1)) (JNum 1))).
  { unfold invalid_dims; simpl. right; right; right; right; right; left.
    exists (-1); split; [left; reflexivity | lia]. }
  split; [exact H | apply (construct_rejects_invalid _ _ _ true H)].
Defined.

(** ** The grid fitter computes floors *)

Lemma cut_floor a b : 0 <= a -> 0 < b -> (a - Z.rem a b) / b = a / b.
Proof.
  intros Ha Hb.
  rewrite Z.rem_mod_nonneg by lia.
  rewrite (Z.mod_eq a b) by lia.
  replace (a - (a - b * (a / b))) with ((a / b) * b) by ring.
  apply Z.div_mul; lia.
Qed.

Lemma validateDivisionByZero_pos d : 0 < d -> _validateDivisionByZero d = Ok tt.
Proof.
  intros H; unfold _validateDivisionByZero.
  replace (d =? 0) with false by (symmetry; apply Z.eqb_neq; lia); reflexivity.
Qed.

Lemma inlineCut_eq source target margin :
  0 <= width source -> 0 <= height source ->
  0 < width target + 2 * width margin -> 0 < height target + 2 * height margin ->
  _inlineCut source target margin =
  Ok (mkGrid (height source / (height target + 2 * height margin))
             (width source / (width target + 2 * width margin))).
Proof.
  intros Hsw Hsh Hw Hh; unfold _inlineCut.
  rewrite !validateDivisionByZero_pos by assumption; cbn [bind width height].
  rewrite !cut_floor by assumption; reflexivity.
Qed.

Lemma crossCut_eq source target margin :
  0 <= width source -> 0 <= height source ->
  0 < width target + 2 * width margin -> 0 < height target + 2 * height margin ->
  _crossCut source target margin =
  Ok (mkGrid (height source / (width target + 2 * width margin))
             (width source / (height target + 2 * height margin))).
Proof.
  intros Hsw Hsh Hw Hh; unfold _crossCut.
  rewrite !validateDivisionByZero_pos by assumption; cbn [bind width height].
  rewrite !cut_floor by assumption; reflexivity.
Qed.

Lemma crossCut_ok source target margin :
  0 < width target + 2 * width margin -> 0 < height target + 2 * height margin ->
  exists g, _crossCut source target margin = Ok g.
Proof.
  intros Hw Hh; unfold _crossCut.
  rewrite !validateDivisionByZero_pos by assumption; eexists; reflexivity.
Qed.

(** ** The nested loops of [_buildRectMatrix] *)

Lemma length_build_cols f c0 n : length (build_cols f c0 (repeat tt n)) = n.
Proof. revert c0; induction n; intros; simpl; auto. Qed.

Lemma nth_build_cols f c0 n j p :
  nth_error (build_cols f c0 (repeat tt n)) j = Some p ->
  (j < n)%nat /\ p = f (c0 + Z.of_nat j).
Proof.
  revert c0 j; induction n as [|n IH]; intros c0 j H; simpl in H.
  - destruct j; discriminate.
  - destruct j as [|j]; simpl in H.
    + injection H as <-; split; [lia | f_equal; lia].
    + apply IH in H as [Hj ->]; split; [lia | f_equal; lia].
Qed.

Lemma nth_build_rows f r0 k n i p :
  nth_error (build_rows f r0 (rect k n)) i = Some p ->
  exists r c, (r < k)%nat /\ (c < n)%nat /\ i = (r * n + c)%nat /\
              p = f (r0 + Z.of_nat r) (Z.of_nat c).
Proof.
  unfold rect; revert r0 i; induction k as [|k IH]; intros r0 i H; simpl in H.
  - destruct i; discriminate.
  - destruct (Nat.lt_ge_cases i n) as [Hi|Hi].
    + rewrite nth_error_app1 in H by (rewrite length_build_cols; lia).
      apply nth_build_cols in H as [Hj ->].
      exists 0%nat, i; repeat split; try lia; f_equal; lia.
    + rewrite nth_error_app2 in H by (rewrite length_build_cols; lia).
      rewrite length_build_cols in H.
      apply IH in H as (r & c & Hr & Hc & Hic & ->).
      exists (S r), c; repeat split; try lia; f_equal; lia.
Qed.

Lemma in_build_rows f r0 k n p :
  In p (build_rows f r0 (rect k n)) ->
  exists r c, (r < k)%nat /\ (c < n)%nat /\ p = f (r0 + Z.of_nat r) (Z.of_nat c).
Proof.
  intros H; apply In_nth_error in H as [i H].
  apply nth_build_rows in H as (r & c & Hr & Hc & _ & Hp); eauto.
Qed.

Lemma length_build_rows f r0 k n : length (build_rows f r0 (rect k n)) = (k * n)%nat.
Proof.
  unfold rect; revert r0; induction k; intros; simpl; auto.
  rewrite length_app, length_build_cols, IHk; lia.
Qed.

(** ** Inversion of the packer *)

Lemma mkMatrix_ok r c :
  0 <= r < 2 ^ 32 -> 0 <= c < 2 ^ 32 -> mkMatrix r c = Ok (rect (Z.to_nat r) (Z.to_nat c)).
Proof.
  intros Hr Hc; unfold mkMatrix, js_array_fill, rect.
  replace ((c <? 0) || (2 ^ 32 <=? c))%bool with false by (symmetry; zbool; lia).
  replace ((r <? 0) || (2 ^ 32 <=? r))%bool with false by (symmetry; zbool; lia).
  reflexivity.
Qed.

Lemma mkMatrix_inv r c m : mkMatrix r c = Ok m -> m = rect (Z.to_nat r) (Z.to_nat c).
Proof.
  unfold mkMatrix, js_array_fill, rect.
  destruct ((c <? 0) || _)%bool; [discriminate|]; cbn [bind].
  destruct ((r <? 0) || _)%bool; [discriminate|]; intros H; injection H as <-; reflexivity.
Qed.

Lemma validateGrid_ok g : _validateGrid g = Ok tt <-> 0 < row g /\ 0 < column g.
Proof.
  unfold _validateGrid.
  destruct (row g <=? 0) eqn:E1; destruct (column g <=? 0) eqn:E2;
    cbn [throw_if bind]; zbool; split; intros; try discriminate; try lia; auto.
Qed.

Lemma buildRectMatrix_ok m sizing reverse start :
  m <> [] -> (forall r0 rest, m = r0 :: rest -> r0 <> []) ->
  Z.of_nat (length (build_rows (cell (swap_if reverse (outerSize sizing))
                                     (swap_if reverse (innerSize sizing))
                                     (swap_if reverse (marginSize sizing)) start) 0 m))
    <= 2 ^ 32 - 1 ->
  _buildRectMatrix m sizing reverse start =
  Ok (build_rows (cell (swap_if reverse (outerSize sizing)) (swap_if reverse (innerSize sizing))
                       (swap_if reverse (marginSize sizing)) start) 0 m).
Proof.
  intros Hm Hr Hl; unfold _buildRectMatrix, _validateRectMatrixArray.
  destruct m as [|r0 rest]; [congruence|].
  destruct r0; [exfalso; eapply Hr; reflexivity|]; cbn [throw_if bind length Nat.eqb].
  rewrite (proj2 (Z.ltb_ge _ _) Hl); reflexivity.
Qed.

Lemma buildRectMatrix_inv m sizing reverse start l :
  _buildRectMatrix m sizing reverse start = Ok l ->
  l = build_rows (cell (swap_if reverse (outerSize sizing)) (swap_if reverse (innerSize sizing))
                       (swap_if reverse (marginSize sizing)) start) 0 m.
Proof.
  unfold _buildRectMatrix; intros H.
  apply bind_ok in H as ([] & _ & H); apply bind_ok in H as ([] & _ & H).
  injection H as <-; reflexivity.
Qed.

Lemma generate_inv grid sizing l :
  _generateLayoutMatrix grid sizing = Ok l ->
  0 < row grid /\ 0 < column grid /\ main l = main_of grid sizing /\
  ((remain l = None /\
    (remainder_of grid sizing = Ok None \/
     exists g st, remainder_of grid sizing = Ok (Some (g, st)) /\
                  (row g <= 0 \/ column g <= 0))) \/
   exists g st, remainder_of grid sizing = Ok (Some (g, st)) /\
                0 < row g /\ 0 < column g /\ remain l = Some (remain_of g st sizing)).
Proof.
  unfold _generateLayoutMatrix; intros H.
  apply bind_ok in H as ([] & Hg & H). apply validateGrid_ok in Hg as [Hr Hc].
  apply bind_ok in H as (mm & Hmm & H). apply mkMatrix_inv in Hmm; subst mm.
  apply bind_ok in H as (mn & Hmn & H). apply buildRectMatrix_inv in Hmn; subst mn.
  apply bind_ok in H as (rem & Hrem & H). fold (remainder_of grid sizing) in Hrem.
  do 2 (split; [assumption|]).
  destruct rem as [[g st]|].
  - destruct ((0 <? row g) && (0 <? column g))%bool eqn:E.
    + zbool. apply bind_ok in H as (rm & Hrm & H). apply mkMatrix_inv in Hrm; subst rm.
      apply bind_ok in H as (rl & Hrl & H). apply buildRectMatrix_inv in Hrl; subst rl.
      injection H as <-; split; [reflexivity|].
      right; exists g, st; repeat split; auto.
    + injection H as <-; split; [reflexivity|].
      left; split; [reflexivity|]; right; exists g, st; split; auto.
      destruct (0 <? row g) eqn:E1; simpl in E; zbool; lia.
  - injection H as <-; split; [reflexivity|]; left; auto.
Qed.

Lemma calculate_inv self res :
  calculate self = Ok res ->
  exists grid, primaryGrid self = Ok grid /\
    _generateLayoutMatrix grid (sizing_of self) = Ok (layout res) /\
    total res = count_total (layout res).
Proof.
  unfold calculate; intros H.
  apply bind_ok in H as (g & Hg & H). apply bind_ok in H as ([] & _ & H).
  apply bind_ok in H as (l & Hl & H). injection H as <-.
  exists g; auto.
Qed.

(** ** Numeric facts on valid inputs *)

Lemma valid_sizing self : valid self -> sizing_ok (sizing_of self).
Proof.
  destruct self as [[sw sh] [tw th] [mw mh] []]; unfold valid, sizing_ok, sizing_of;
    proj; lia.
Qed.

Lemma div_mul_le a b : 0 <= a -> 0 < b -> a / b * b <= a.
Proof. intros; rewrite Z.mul_comm; apply Z.mul_div_le; lia. Qed.

Lemma valid_primary self :
  valid self ->
  let s := sizing_of self in
  primaryGrid self = Ok (mkGrid (height (source s) / height (outerSize s))
                                (width (source s) / width (outerSize s))) /\
  grid_fits (mkGrid (height (source s) / height (outerSize s))
                    (width (source s) / width (outerSize s))) s.
Proof.
  intros Hv; pose proof (valid_sizing self Hv) as Hs.
  destruct self as [[sw sh] [tw th] [mw mh] []]; unfold valid in Hv;
    unfold sizing_ok, sizing_of, primaryGrid, grid_fits in *; proj.
  - rewrite inlineCut_eq by (proj; lia); split; [reflexivity|].
    repeat split; try (apply Z.div_pos; lia); apply div_mul_le; lia.
  - rewrite crossCut_eq by (proj; lia); split; [reflexivity|].
    repeat split; try (apply Z.div_pos; lia); apply div_mul_le; lia.
Qed.

Lemma validateRemainXY_ok a b : 0 <= a -> 0 <= b -> _validateRemainXY a b = Ok tt.
Proof.
  intros; unfold _validateRemainXY.
  replace (a <? 0) with false by (symmetry; apply Z.ltb_ge; lia).
  replace (b <? 0) with false by (symmetry; apply Z.ltb_ge; lia).
  reflexivity.
Qed.

(** What [_calculateRemain] returns after a fitting main grid. *)
Lemma remainder_cases grid sizing :
  sizing_ok sizing -> grid_fits grid sizing ->
  let o := outerSize sizing in let src := source sizing in
  let remainX := width src - width o * column grid in
  let remainY := height src - height o * row grid in
  remainder_of grid sizing =
  if height (innerSize sizing) <=? remainX then
    Ok (Some (mkGrid (height src / width o) (remainX / height o),
              mkCoords (width o * column grid) 0))
  else if width (innerSize sizing) <=? remainY then
    Ok (Some (mkGrid (remainY / width o) (width src / height o),
              mkCoords 0 (height o * row grid)))
  else Ok None.
Proof.
  intros Hs Hg; unfold sizing_ok, grid_fits in *; cbn zeta.
  unfold remainder_of, _calculateRemain, mainContainer_of; cbn [width height].
  rewrite validateRemainXY_ok by lia; cbn [bind].
  destruct (height (innerSize sizing) <=?
            width (source sizing) - width (outerSize sizing) * column grid) eqn:E1;
  [|destruct (width (innerSize sizing) <=?
              height (source sizing) - height (outerSize sizing) * row grid) eqn:E2].
  - rewrite crossCut_eq by (proj; lia); proj.
    do 2 f_equal; destruct Hs as (_ & _ & -> & -> & _); reflexivity.
  - rewrite crossCut_eq by (proj; lia); proj.
    do 2 f_equal; destruct Hs as (_ & _ & -> & -> & _); reflexivity.
  - reflexivity.
Qed.

Lemma buildRectMatrix_rect r c sizing reverse start :
  0 < r -> 0 < c -> r * c <= 2 ^ 32 - 1 ->
  _buildRectMatrix (rect (Z.to_nat r) (Z.to_nat c)) sizing reverse start =
  Ok (build_rows (cell (swap_if reverse (outerSize sizing)) (swap_if reverse (innerSize sizing))
                       (swap_if reverse (marginSize sizing)) start) 0
                 (rect (Z.to_nat r) (Z.to_nat c))).
Proof.
  intros Hr Hc Hrc; apply buildRectMatrix_ok; unfold rect.
  - destruct (Z.to_nat r) eqn:E; [lia|]; discriminate.
  - intros r0 rest; destruct (Z.to_nat r); [discriminate|].
    intros Hm; injection Hm as <- _; destruct (Z.to_nat c) eqn:E; [lia|]; discriminate.
  - fold (rect (Z.to_nat r) (Z.to_nat c)); rewrite length_build_rows; nia.
Qed.

(** A main grid whose [Array]s are within bounds and that leaves no
    remainder is laid out without error. *)
Lemma generate_no_remainder grid sizing :
  0 < row grid < 2 ^ 32 -> 0 < column grid < 2 ^ 32 -> row grid * column grid <= 2 ^ 32 - 1 ->
  remainder_of grid sizing = Ok None ->
  _generateLayoutMatrix grid sizing = Ok (mkLayout (main_of grid sizing) None).
Proof.
  intros Hr Hc Hrc Hrem; unfold _generateLayoutMatrix.
  replace (_validateGrid grid) with (Ok tt) by (symmetry; apply validateGrid_ok; lia).
  cbn [bind]; rewrite mkMatrix_ok by lia; cbn [bind].
  rewrite buildRectMatrix_rect by lia; cbn [bind].
  fold (remainder_of grid sizing); rewrite Hrem; reflexivity.
Qed.

Lemma calculate_unfold self g :
  primaryGrid self = Ok g ->
  calculate self =
  (_validateGrid g ;;;
   l <- _generateLayoutMatrix g (sizing_of self) ;;
   Ok (mkCalc l (count_total l))).
Proof. intros H; unfold calculate; rewrite H; reflexivity. Qed.

(** ** The layout core on numbers: where its errors come from *)

Section Avoids.

Variable bad : err -> bool.

Lemma av_ok {A} (a : A) : avoids bad (Ok a).
Proof. intros e H; discriminate H. Qed.

Lemma av_bind {A B} (m : result A) (k : A -> result B) :
  avoids bad m -> (forall a, m = Ok a -> avoids bad (k a)) -> avoids bad (bind m k).
Proof.
  intros Hm Hk e; destruct m as [a|e']; cbn.
  - apply (Hk a eq_refl).
  - intros H; injection H as <-; apply Hm; reflexivity.
Qed.

Lemma av_throw b e0 : bad e0 = false -> avoids bad (throw_if b e0).
Proof. intros H e; destruct b; cbn; [intros E; injection E as <-; exact H | discriminate]. Qed.

Hypothesis bad_length : bad InvalidArrayLength = false.

Lemma av_array_length n : avoids bad (F64.js_array_length n).
Proof.
  intros e; unfold F64.js_array_length.
  destruct (Prim2SF n) as [s|s| |[] m ex]; try (intros H; discriminate H);
    try (intros H; injection H as <-; exact bad_length).
  repeat match goal with
  | |- context [if ?b then _ else _] => destruct b
  | |- context [match ?v with Some _ => _ | None => _ end] => destruct v
  end; intros H; try discriminate H; injection H as <-; exact bad_length.
Qed.

Lemma av_mkMatrix r c : avoids bad (F64.mkMatrix r c).
Proof.
  unfold F64.mkMatrix, F64.js_array_fill.
  apply av_bind; [apply av_array_length|intros len _].
  apply av_bind; [apply av_bind; [apply av_array_length | intros; apply av_ok]|intros; apply av_ok].
Qed.

(** Past [_validateRectMatrixArray], [_buildRectMatrix] can only fail at
    [push]. *)
Lemma av_buildRectMatrix_valid m sz rev st :
  _validateRectMatrixArray m = Ok tt -> avoids bad (F64._buildRectMatrix m sz rev st).
Proof.
  intros Hm; unfold F64._buildRectMatrix; rewrite Hm; cbn [bind].
  apply av_bind; [apply av_throw; exact bad_length | intros; apply av_ok].
Qed.

Hypothesis bad_division : bad DivisionByZero = false.

Lemma av_crossCut s t m : avoids bad (F64._crossCut s t m).
Proof.
  unfold F64._crossCut, F64._validateDivisionByZero.
  apply av_bind; [apply av_throw; exact bad_division|intros _ _].
  apply av_bind; [apply av_throw; exact bad_division|intros _ _]; apply av_ok.
Qed.

Hypothesis bad_remainX : bad NegativeRemainX = false.
Hypothesis bad_remainY : bad NegativeRemainY = false.

Lemma av_calculateRemain s c t m : avoids bad (F64._calculateRemain s c t m).
Proof.
  unfold F64._calculateRemain, F64._validateRemainXY.
  apply av_bind;
    [apply av_bind; [apply av_throw; exact bad_remainX | intros; apply av_throw; exact bad_remainY]
    |intros _ _].
  destruct (_ <=? _)%float; [|destruct (_ <=? _)%float];
    try (apply av_bind; [apply av_crossCut | intros; apply av_ok]); apply av_ok.
Qed.

End Avoids.

Lemma av_buildRectMatrix_grid m sz rev st : avoids grid_err (F64._buildRectMatrix m sz rev st).
Proof.
  unfold F64._buildRectMatrix, _validateRectMatrixArray.
  apply av_bind; [destruct m; [intros e H; injection H as <-; reflexivity | apply av_throw; reflexivity]|intros _ _].
  apply av_bind; [apply av_throw; reflexivity | intros; apply av_ok].
Qed.

Lemma validateGrid_pass g :
  (F64.row g <=? 0)%float = false -> (F64.column g <=? 0)%float = false ->
  F64._validateGrid g = Ok tt.
Proof. intros H1 H2; unfold F64._validateGrid; rewrite H1, H2; reflexivity. Qed.

Lemma calculate_unfold_f64 self g :
  F64.primaryGrid self = Ok g ->
  F64.calculate self =
  (F64._validateGrid g ;;;
   l <- F64._generateLayoutMatrix g (F64.sizing_of self) ;;
   Ok (F64.mkCalc l (F64.count_total l))).
Proof. intros H; unfold F64.calculate; rewrite H; reflexivity. Qed.

(** An array length accepted for a number that is not [<= 0] is not 0. *)
Lemma js_array_length_pos n len :
  F64.js_array_length n = Ok len -> (n <=? 0)%float = false -> (0 < len)%nat.
Proof.
  unfold F64.js_array_length; rewrite FloatAxioms.leb_spec.
  change (Prim2SF 0) with (S754_zero false).
  intros H Hle.
  destruct (Prim2SF n) as [s|s| |[] m e]; try discriminate H; [destruct s; cbn in Hle; discriminate Hle|].
  destruct (0 <=? e) eqn:He; [apply Z.leb_le in He | apply Z.leb_gt in He].
  - destruct (Zpos m * 2 ^ e <? 2 ^ 32) eqn:Hb; [|discriminate H].
    injection H as <-.
    assert (Hp : 0 < 2 ^ e) by (apply Z.pow_pos_nonneg; lia).
    assert (0 < Zpos m * 2 ^ e) by (apply Z.mul_pos_pos; lia).
    change (0 < Z.to_nat (Zpos m * 2 ^ e))%nat.
    set (v := Zpos m * 2 ^ e) in *; lia.
  - destruct (Zpos m mod 2 ^ (- e) =? 0) eqn:Hm; [|discriminate H].
    destruct (Zpos m / 2 ^ (- e) <? 2 ^ 32) eqn:Hb; [|discriminate H].
    injection H as <-.
    apply Z.eqb_eq in Hm.
    assert (Hp : 0 < 2 ^ (- e)) by (apply Z.pow_pos_nonneg; lia).
    pose proof (Z.div_mod (Zpos m) (2 ^ (- e)) ltac:(lia)) as Hd.
    set (p := 2 ^ (- e)) in *; set (q := Zpos m / p) in *.
    assert (0 < q) by nia. lia.
Qed.

Lemma lt_not_le n : (0 <? n)%float = true -> (n <=? 0)%float = false.
Proof.
  rewrite FloatAxioms.ltb_spec, FloatAxioms.leb_spec.
  change (Prim2SF 0) with (S754_zero false).
  destruct (Prim2SF n) as [[]|[]| |[] m e]; cbn; congruence.
Qed.

(** [Array(rows).fill(Array(columns).fill(...))] for numbers that are not
    [<= 0] passes [_validateRectMatrixArray]. *)
Lemma mkMatrix_valid r c m :
  F64.mkMatrix r c = Ok m -> (r <=? 0)%float = false -> (c <=? 0)%float = false ->
  _validateRectMatrixArray m = Ok tt.
Proof.
  unfold F64.mkMatrix, F64.js_array_fill; intros H Hr Hc.
  destruct (F64.js_array_length r) as [lr|] eqn:Er; [|discriminate H]; cbn [bind] in H.
  destruct (F64.js_array_length c) as [lc|] eqn:Ec; [|discriminate H]; cbn [bind] in H.
  injection H as <-.
  apply js_array_length_pos in Er; [|exact Hr]; apply js_array_length_pos in Ec; [|exact Hc].
  destruct lr as [|lr]; [lia|]; destruct lc as [|lc]; [lia|]; reflexivity.
Qed.

Lemma av_inlineCut bad s t m : bad DivisionByZero = false -> avoids bad (F64._inlineCut s t m).
Proof.
  intros Hb; unfold F64._inlineCut, F64._validateDivisionByZero.
  apply av_bind; [apply av_throw; exact Hb|intros _ _].
  apply av_bind; [apply av_throw; exact Hb|intros _ _]; apply av_ok.
Qed.

(** ** The claims *)

(** C1 (counterexample): in the documented example source 65x100, target
    43x12, margin 1x1, inline, the main grid covers 45x98, so
    [remainX = 20 >= target.height = 12] and [remainY = 2 < target.width = 43].
    The code packs the vertical strip (2 rows, 1 column at x = 45); the order
    the claim describes packs the horizontal strip, whose grid has no row. *)
Lemma calculateRemain_order_counterexample :
  _calculateRemain (mkSize 65 100) (mkSize 45 98) (mkSize 43 12) (mkSize 1 1) =
    Ok (Some (mkGrid 2 1, mkCoords 45 0)) /\
  computeRemainder_spec (mkSize 65 100) (mkSize 45 98) (mkSize 43 12) (mkSize 1 1) =
    Ok (Some (mkGrid 0 4, mkCoords 0 98)) /\
  _calculateRemain (mkSize 65 100) (mkSize 45 98) (mkSize 43 12) (mkSize 1 1) <>
  computeRemainder_spec (mkSize 65 100) (mkSize 45 98) (mkSize 43 12) (mkSize 1 1).
Proof. vm_compute. split; [reflexivity|]; split; [reflexivity|]; discriminate. Qed.

(** C1 (amended): with non-negative leftovers, [_calculateRemain] first
    tests [source.width - container.width >= target.height] and packs the
    vertical strip, a cross grid in {remainX, source.height} anchored at
    (container.width, 0); otherwise it tests
    [source.height - container.height >= target.width] and packs the
    horizontal strip, a cross grid in {source.width, remainY} anchored at
    (0, container.height); otherwise it returns null. *)
Theorem calculateRemain_order (source container target margin : ISquareSize) :
  let remainX := width source - width container in
  let remainY := height source - height container in
  0 <= remainX -> 0 <= remainY ->
  0 < width target + 2 * width margin -> 0 < height target + 2 * height margin ->
  (height target <= remainX ->
   exists g, _crossCut (mkSize remainX (height source)) target margin = Ok g /\
     _calculateRemain source container target margin =
     Ok (Some (g, mkCoords (width container) 0))) /\
  (remainX < height target -> width target <= remainY ->
   exists g, _crossCut (mkSize (width source) remainY) target margin = Ok g /\
     _calculateRemain source container target margin =
     Ok (Some (g, mkCoords 0 (height container)))) /\
  (remainX < height target -> remainY < width target ->
   _calculateRemain source container target margin = Ok None).
Proof.
  cbn zeta; intros HX HY Hw Hh.
  unfold _calculateRemain; proj; rewrite validateRemainXY_ok by lia;
    cbn [bind].
  split; [|split]; intros.
  - replace (height target <=? width source - width container) with true by (symmetry; apply Z.leb_le; lia).
    destruct (crossCut_ok (mkSize (width source - width container) (height source))
                target margin Hw Hh) as [g Hg].
    rewrite Hg; eexists; split; reflexivity.
  - replace (height target <=? width source - width container) with false by (symmetry; apply Z.leb_gt; lia).
    replace (width target <=? height source - height container) with true by (symmetry; apply Z.leb_le; lia).
    destruct (crossCut_ok (mkSize (width source) (height source - height container))
                target margin Hw Hh) as [g Hg].
    rewrite Hg; eexists; split; reflexivity.
  - replace (height target <=? width source - width container) with false by (symmetry; apply Z.leb_gt; lia).
    replace (width target <=? height source - height container) with false by (symmetry; apply Z.leb_gt; lia).
    reflexivity.
Qed.

Lemma calculateRemain_order_witness :
  exists g, _crossCut (mkSize 20 100) (mkSize 43 12) (mkSize 1 1) = Ok g /\
    _calculateRemain (mkSize 65 100) (mkSize 45 98) (mkSize 43 12) (mkSize 1 1) =
    Ok (Some (g, mkCoords 45 0)).
Proof.
  refine (proj1 (calculateRemain_order (mkSize 65 100) (mkSize 45 98) (mkSize 43 12)
                   (mkSize 1 1) _ _ _ _) _); cbn; lia.
Defined.

(** C2 (failing input): on JavaScript numbers the grid fitter's
    [(a - a % b) / b] is rounded and need not be [floor(a / b)].  Source
    5x10, target 1x1, margin 0.2x0, inline, accepted by the constructor:
    the cell width is the double [1 + 2 * 0.2]; the exact floor of
    [5 / cellWidth] is 3, but [_inlineCut] returns the column
    2.9999999999999996, and [calculate] then throws the [RangeError] of
    [Array(2.9999999999999996)]. *)
Theorem grid_fitter_rounding :
  F64.construct (F64.mkSize 5 10) (F64.mkSize 1 1) (F64.mkSize 0.2 0) true =
    Ok (F64.mkCalculator (F64.mkSize 5 10) (F64.mkSize 1 1) (F64.mkSize 0.2 0) true) /\
  F64._inlineCut (F64.mkSize 5 10) (F64.mkSize 1 1) (F64.mkSize 0.2 0) =
    Ok (F64.mkGrid 10 2.9999999999999996) /\
  Qfloor (F64.to_Q 5 / F64.to_Q (1 + 2 * 0.2)) = 3 /\
  (F64.to_Q 2.9999999999999996 < inject_Z 3)%Q /\
  F64.calculate (F64.mkCalculator (F64.mkSize 5 10) (F64.mkSize 1 1) (F64.mkSize 0.2 0) true) =
    Err InvalidArrayLength.
Proof.
  split; [vm_compute; reflexivity|].
  split; [vm_compute; reflexivity|].
  split; [vm_compute; reflexivity|].
  split; [vm_compute; reflexivity|].
  vm_compute; reflexivity.
Qed.

(** C3: whenever [calculate] succeeds, [total] is the length of [main] plus
    the length of [remain], an absent [remain] counting 0. *)
Theorem calculate_total (self : Calculator) (res : CalcResult) :
  calculate self = Ok res ->
  total res = Z.of_nat (length (main (layout res))) +
              match remain (layout res) with
              | Some rs => Z.of_nat (length rs)
              | None => 0
              end.
Proof.
  intros H; apply calculate_inv in H as (g & _ & _ & ->).
  unfold count_total, layout_values.
  destruct (remain (layout res)); cbn [fold_left]; lia.
Qed.

Lemma calculate_total_witness :
  exists res, calculate scB = Ok res /\
  total res = Z.of_nat (length (main (layout res))) +
              match remain (layout res) with
              | Some rs => Z.of_nat (length rs)
              | None => 0
              end.
Proof.
  eexists; split; [reflexivity | apply (calculate_total scB); reflexivity].
Defined.

(** C6: source 65x100, target 43x12, margin 1x1, inline: primary grid of 7
    rows and 1 column, 7 main placements, 2 remain placements, total 9. *)
Theorem scenario_B :
  primaryGrid scB = Ok (mkGrid 7 1) /\
  exists res rs, calculate scB = Ok res /\
    length (main (layout res)) = 7%nat /\ remain (layout res) = Some rs /\
    length rs = 2%nat /\ total res = 9.
Proof.
  split; [reflexivity|].
  do 2 eexists; split; [vm_compute; reflexivity|].
  repeat split; reflexivity.
Qed.

(** C5 (failing input): on JavaScript numbers the outer rectangles of
    [main] can overlap.  Source 37.63x26.65, target 2.8x7.68, margin 0,
    inline, accepted by the constructor: the main placements 5 and 6 (row
    0, columns 5 and 6) have [outer.x = 5 * 2.8 = 14] and
    [outer.x = 6 * 2.8 = 16.799999999999997], both of width 2.8, and
    [14 + 2.8] exceeds 16.799999999999997, in doubles and exactly. *)
Theorem placements_overlap_rounding :
  F64.construct (F64.mkSize 37.63 26.65) (F64.mkSize 2.8 7.68) (F64.mkSize 0 0) true =
    Ok (F64.mkCalculator (F64.mkSize 37.63 26.65) (F64.mkSize 2.8 7.68) (F64.mkSize 0 0) true) /\
  exists res p q,
    F64.calculate (F64.mkCalculator (F64.mkSize 37.63 26.65) (F64.mkSize 2.8 7.68)
                                    (F64.mkSize 0 0) true) = Ok res /\
    nth_error (F64.main (F64.layout res)) 5 = Some p /\
    nth_error (F64.main (F64.layout res)) 6 = Some q /\
    F64.rx (F64.outer p) = 14%float /\ F64.rx (F64.outer q) = 16.799999999999997%float /\
    F64.rwidth (F64.outer p) = 2.8%float /\
    (F64.rx (F64.outer q) <? F64.rx (F64.outer p) + F64.rwidth (F64.outer p))%float = true /\
    f64_overlap (F64.outer p) (F64.outer q).
Proof.
  split; [vm_compute; reflexivity|].
  destruct (F64.calculate _) as [res|e] eqn:E; vm_compute in E; [|discriminate E].
  injection E as <-.
  do 3 eexists; split; [reflexivity|].
  split; [reflexivity|]; split; [reflexivity|].
  split; [reflexivity|]; split; [reflexivity|]; split; [reflexivity|].
  split; [vm_compute; reflexivity|].
  unfold f64_overlap; vm_compute; repeat split; reflexivity.
Qed.

(** C7: let [g] be the primary grid.  [calculate] throws an
    [EmptyGridError] exactly when [g.row <= 0] or [g.column <= 0] (no later
    step throws one).  When the remainder grid [g'] has [g'.row > 0] false
    or [g'.column > 0] false, [calculate] behaves as with no remainder: it
    returns what the main grid alone gives, and a result has no [remain]. *)
Theorem calculate_empty_grid (self : F64.Calculator) (g : F64.IMatrixGrid) :
  F64.primaryGrid self = Ok g ->
  ((F64.calculate self = Err EmptyGridRow \/ F64.calculate self = Err EmptyGridColumn) <->
   (F64.row g <=? 0)%float = true \/ (F64.column g <=? 0)%float = true) /\
  (forall g' st, f64_remainder_of g (F64.sizing_of self) = Ok (Some (g', st)) ->
     ((0 <? F64.row g') && (0 <? F64.column g'))%float = false ->
     F64.calculate self = f64_main_only self g /\
     (forall res, F64.calculate self = Ok res -> F64.remain (F64.layout res) = None)).
Proof.
  intros Hp; rewrite (calculate_unfold_f64 _ _ Hp).
  split.
  - unfold F64._validateGrid.
    destruct (F64.row g <=? 0)%float eqn:E1; [cbn [throw_if bind]; split; [intros _; left; reflexivity | intros _; left; reflexivity]|].
    destruct (F64.column g <=? 0)%float eqn:E2; [cbn [throw_if bind]; split; [intros _; right; reflexivity | intros _; right; reflexivity]|].
    cbn [throw_if bind]; split; [|intros [H|H]; discriminate H].
    assert (Hng : avoids grid_err (l <- F64._generateLayoutMatrix g (F64.sizing_of self) ;;
                                   Ok (F64.mkCalc l (F64.count_total l)))).
    { apply av_bind; [|intros; apply av_ok].
      unfold F64._generateLayoutMatrix.
      rewrite validateGrid_pass by assumption; cbn [bind].
      apply av_bind; [apply av_mkMatrix; reflexivity|intros mm _].
      apply av_bind; [apply av_buildRectMatrix_grid|intros mn _].
      apply av_bind; [apply av_calculateRemain; reflexivity|intros [[g0 st0]|] _]; [|apply av_ok].
      destruct (_ && _)%bool; [|apply av_ok].
      apply av_bind; [apply av_mkMatrix; reflexivity|intros rm _].
      apply av_bind; [apply av_buildRectMatrix_grid|intros; apply av_ok]. }
    intros [H|H]; apply Hng in H; discriminate H.
  - intros g' st Hrem Hguard.
    assert (Heq : (F64._validateGrid g ;;;
                   l <- F64._generateLayoutMatrix g (F64.sizing_of self) ;;
                   Ok (F64.mkCalc l (F64.count_total l))) = f64_main_only self g).
    { unfold f64_main_only, F64._generateLayoutMatrix.
      destruct (F64._validateGrid g) as [[]|e]; cbn [bind]; [|reflexivity].
      destruct (F64.mkMatrix _ _) as [mm|e]; cbn [bind]; [|reflexivity].
      destruct (F64._buildRectMatrix _ _ _ _) as [mn|e]; cbn [bind]; [|reflexivity].
      unfold f64_remainder_of in Hrem; rewrite Hrem; cbn [bind].
      rewrite Hguard; reflexivity. }
    rewrite Heq; split; [reflexivity|].
    intros res Hres; unfold f64_main_only in Hres.
    apply bind_ok in Hres as ([] & _ & Hres).
    apply bind_ok in Hres as (mm & _ & Hres).
    apply bind_ok in Hres as (mn & _ & Hres).
    injection Hres as <-; reflexivity.
Qed.

Lemma calculate_empty_grid_witness :
  F64.primaryGrid (F64.mkCalculator (F64.mkSize 11 8) (F64.mkSize 3 3) (F64.mkSize 0.5 0.5) true) =
    Ok (F64.mkGrid 2 2) /\
  f64_remainder_of (F64.mkGrid 2 2)
    (F64.sizing_of (F64.mkCalculator (F64.mkSize 11 8) (F64.mkSize 3 3) (F64.mkSize 0.5 0.5) true)) =
    Ok (Some (F64.mkGrid 2 0, F64.mkCoords 8 0)) /\
  F64.calculate (F64.mkCalculator (F64.mkSize 11 8) (F64.mkSize 3 3) (F64.mkSize 0.5 0.5) true) =
    f64_main_only (F64.mkCalculator (F64.mkSize 11 8) (F64.mkSize 3 3) (F64.mkSize 0.5 0.5) true)
                  (F64.mkGrid 2 2).
Proof.
  split; [vm_compute; reflexivity|]; split; [vm_compute; reflexivity|].
  apply (proj2 (calculate_empty_grid
           (F64.mkCalculator (F64.mkSize 11 8) (F64.mkSize 3 3) (F64.mkSize 0.5 0.5) true)
           (F64.mkGrid 2 2) ltac:(vm_compute; reflexivity))
           (F64.mkGrid 2 0) (F64.mkCoords 8 0)); vm_compute; reflexivity.
Defined.

(** C9: when the target with twice its margin equals the source on both axes
    (inline), the primary grid is 1 by 1, there is one main placement, and no
    remainder. *)
Theorem exact_fit_single (self : Calculator) :
  _useInline self = true ->
  0 < width (_target self) -> 0 < height (_target self) ->
  0 <= width (_margin self) -> 0 <= height (_margin self) ->
  width (_target self) + 2 * width (_margin self) = width (_source self) ->
  height (_target self) + 2 * height (_margin self) = height (_source self) ->
  primaryGrid self = Ok (mkGrid 1 1) /\
  exists res, calculate self = Ok res /\ length (main (layout res)) = 1%nat /\
              remain (layout res) = None /\ total res = 1.
Proof.
  destruct self as [[sw sh] [tw th] [mw mh] inl]; proj; intros -> Htw Hth Hmw Hmh Hw Hh.
  assert (Hv : valid (mkCalculator (mkSize sw sh) (mkSize tw th) (mkSize mw mh) true))
    by (unfold valid; proj; lia).
  destruct (valid_primary _ Hv) as [Hp Hfit]; cbn zeta in Hp, Hfit.
  unfold sizing_of in Hp, Hfit; proj.
  replace (sh / (th + 2 * mh)) with 1 in * by (rewrite <- Hh; symmetry; apply Z.div_same; lia).
  replace (sw / (tw + 2 * mw)) with 1 in * by (rewrite <- Hw; symmetry; apply Z.div_same; lia).
  split; [exact Hp|].
  pose proof (valid_sizing _ Hv) as Hs.
  exists (mkCalc (mkLayout (main_of (mkGrid 1 1) (sizing_of
            (mkCalculator (mkSize sw sh) (mkSize tw th) (mkSize mw mh) true))) None)
                 1).
  rewrite (calculate_unfold _ _ Hp); cbn [_validateGrid throw_if bind row column].
  pose proof (remainder_cases _ _ Hs Hfit) as Hrem; unfold sizing_of in Hrem; proj.
  replace (th <=? sw - (tw + 2 * mw) * 1) with false in Hrem by (symmetry; apply Z.leb_gt; lia).
  replace (tw <=? sh - (th + 2 * mh) * 1) with false in Hrem by (symmetry; apply Z.leb_gt; lia).
  rewrite generate_no_remainder by (cbn; try lia; exact Hrem).
  unfold count_total, layout_values, main_of; proj; rewrite length_build_rows.
  repeat split; reflexivity.
Qed.

Lemma exact_fit_single_witness :
  primaryGrid (mkCalculator (mkSize 47 14) (mkSize 43 12) (mkSize 2 1) true) = Ok (mkGrid 1 1) /\
  exists res, calculate (mkCalculator (mkSize 47 14) (mkSize 43 12) (mkSize 2 1) true) = Ok res /\
    length (main (layout res)) = 1%nat /\ remain (layout res) = None /\ total res = 1.
Proof.
  apply exact_fit_single; cbn; lia.
Defined.

(** C10 (failing input): on JavaScript numbers a placement can leave the
    source.  Source 37.7x22.2, target 14x4.1, margin 0, cross, accepted by
    the constructor: the third remain placement has [outer.y = 18.1] and
    [outer.height = 4.1], and [18.1 + 4.1] is 22.200000000000003 in doubles,
    above the source height 22.2 (also exactly). *)
Theorem placement_leaves_source_rounding :
  F64.construct (F64.mkSize 37.7 22.2) (F64.mkSize 14 4.1) (F64.mkSize 0 0) false =
    Ok (F64.mkCalculator (F64.mkSize 37.7 22.2) (F64.mkSize 14 4.1) (F64.mkSize 0 0) false) /\
  exists res rs p,
    F64.calculate (F64.mkCalculator (F64.mkSize 37.7 22.2) (F64.mkSize 14 4.1)
                                    (F64.mkSize 0 0) false) = Ok res /\
    F64.remain (F64.layout res) = Some rs /\ nth_error rs 2 = Some p /\
    F64.ry (F64.outer p) = 18.1%float /\ F64.rheight (F64.outer p) = 4.1%float /\
    (F64.ry (F64.outer p) + F64.rheight (F64.outer p) = 22.200000000000003)%float /\
    (22.2 <? F64.ry (F64.outer p) + F64.rheight (F64.outer p))%float = true /\
    (F64.to_Q 22.2 < F64.to_Q (F64.ry (F64.outer p)) + F64.to_Q (F64.rheight (F64.outer p)))%Q.
Proof.
  split; [vm_compute; reflexivity|].
  destruct (F64.calculate _) as [res|e] eqn:E; vm_compute in E; [|discriminate E].
  injection E as <-.
  do 3 eexists; split; [reflexivity|].
  split; [reflexivity|]; split; [reflexivity|].
  split; [reflexivity|]; split; [reflexivity|]; split; [vm_compute; reflexivity|].
  split; vm_compute; reflexivity.
Qed.

(** ** Geometry of the placements *)

Lemma cell_fits o i m st r c :
  width o = width i + 2 * width m -> height o = height i + 2 * height m ->
  placement_fits i m (cell o i m st r c).
Proof. intros Hw Hh; unfold placement_fits, cell; proj; lia. Qed.

Lemma sizing_of_shape self :
  let s := sizing_of self in
  innerSize s = swap_if (negb (_useInline self)) (_target self) /\
  marginSize s = swap_if (negb (_useInline self)) (_margin self) /\
  width (outerSize s) = width (innerSize s) + 2 * width (marginSize s) /\
  height (outerSize s) = height (innerSize s) + 2 * height (marginSize s).
Proof.
  destruct self as [[sw sh] [tw th] [mw mh] []]; unfold sizing_of; proj;
    repeat split; reflexivity.
Qed.

Lemma swap_if_swap_if b s : swap_if true (swap_if (negb b) s) = swap_if b s.
Proof. destruct b, s; reflexivity. Qed.

(** C4 (counterexample): in the documented example (source 65x100, target
    43x12, margin 1x1, inline) the first remain placement is rotated: its
    inner rectangle is 12 wide, not the target's 43. *)
Lemma placement_margin_counterexample :
  exists res rs p, calculate scB = Ok res /\ remain (layout res) = Some rs /\ In p rs /\
    ~ placement_fits (_target scB) (_margin scB) p.
Proof.
  do 3 eexists; split; [reflexivity|]; split; [reflexivity|]; split; [left; reflexivity|].
  unfold placement_fits; cbn; lia.
Qed.

(** C4 (amended): every placement has [inner.x = outer.x + m.width],
    [inner.y = outer.y + m.height], inner size [t] and outer size [t + 2 m],
    where [t] and [m] are the target and margin as given for main placements
    in inline orientation and remain placements in cross orientation, and
    the target and margin with width and height swapped for main placements
    in cross orientation and remain placements in inline orientation. *)
Theorem placement_margin (self : Calculator) (res : CalcResult) :
  calculate self = Ok res ->
  (forall p, In p (main (layout res)) ->
     placement_fits (swap_if (negb (_useInline self)) (_target self))
                    (swap_if (negb (_useInline self)) (_margin self)) p) /\
  (forall rs p, remain (layout res) = Some rs -> In p rs ->
     placement_fits (swap_if (_useInline self) (_target self))
                    (swap_if (_useInline self) (_margin self)) p).
Proof.
  intros H; apply calculate_inv in H as (g & _ & Hgen & _).
  destruct (sizing_of_shape self) as (Hi & Hm & Hw & Hh).
  apply generate_inv in Hgen as (_ & _ & Hmain & Hrem).
  split.
  - intros p Hp; rewrite Hmain in Hp; unfold main_of in Hp.
    apply in_build_rows in Hp as (r & c & _ & _ & ->).
    rewrite <- Hi, <- Hm; apply cell_fits; assumption.
  - intros rs p Hrs Hp.
    destruct Hrem as [[Hn _] | (g' & st & _ & _ & _ & Hr)]; [congruence|].
    rewrite Hr in Hrs; injection Hrs as <-; unfold remain_of in Hp.
    apply in_build_rows in Hp as (r & c & _ & _ & ->).
    rewrite Hi, Hm, !swap_if_swap_if.
    rewrite Hi, Hm in Hw, Hh.
    apply cell_fits;
      destruct (_useInline self), (_target self), (_margin self);
      cbn [swap_if negb width height] in *; lia.
Qed.

Lemma placement_margin_witness :
  exists res, calculate scB = Ok res /\
  (forall p, In p (main (layout res)) ->
     placement_fits (swap_if (negb (_useInline scB)) (_target scB))
                    (swap_if (negb (_useInline scB)) (_margin scB)) p) /\
  (forall rs p, remain (layout res) = Some rs -> In p rs ->
     placement_fits (swap_if (_useInline scB) (_target scB))
                    (swap_if (_useInline scB) (_margin scB)) p).
Proof.
  eexists; split; [reflexivity | apply (placement_margin scB); reflexivity].
Defined.

(** ** Further properties of the code *)

(** *** Counting and order of the placements *)

Lemma row_major_index r c n :
  (c < n)%nat ->
  Z.of_nat (r * n + c) / Z.of_nat n = Z.of_nat r /\
  Z.of_nat (r * n + c) mod Z.of_nat n = Z.of_nat c.
Proof.
  intros Hc; rewrite Nat2Z.inj_add, Nat2Z.inj_mul; split.
  - rewrite Z.div_add_l by lia; rewrite Z.div_small by lia; lia.
  - rewrite Z.add_comm, Z.mod_add by lia; apply Z.mod_small; lia.
Qed.

(** X1: [main] has [row * column] placements of the primary grid; a
    [remain] key is only set with the placements of a remainder grid with
    at least one row and one column, [row' * column'] of them, so it is
    never an empty array. *)
Theorem calculate_counts (self : Calculator) (g : IMatrixGrid) (res : CalcResult) :
  primaryGrid self = Ok g -> calculate self = Ok res ->
  length (main (layout res)) = (Z.to_nat (row g) * Z.to_nat (column g))%nat /\
  (forall rs, remain (layout res) = Some rs ->
     exists g' st, remainder_of g (sizing_of self) = Ok (Some (g', st)) /\
       0 < row g' /\ 0 < column g' /\
       length rs = (Z.to_nat (row g') * Z.to_nat (column g'))%nat /\ rs <> []).
Proof.
  intros Hp Hc; apply calculate_inv in Hc as (g0 & Hg0 & Hgen & _).
  rewrite Hp in Hg0; injection Hg0 as <-.
  apply generate_inv in Hgen as (Hr & Hcol & Hm & Hrem).
  split; [rewrite Hm; apply length_build_rows|].
  intros rs Hrs.
  destruct Hrem as [[Hn _] | (g' & st & H1 & H2 & H3 & H4)]; [congruence|].
  rewrite H4 in Hrs; injection Hrs as <-.
  exists g', st; repeat split; auto.
  - apply length_build_rows.
  - intros He; apply (f_equal (@length _)) in He.
    unfold remain_of in He; rewrite length_build_rows in He; cbn in He; nia.
Qed.

Lemma calculate_counts_witness :
  exists res, calculate scB = Ok res /\
  length (main (layout res)) = (Z.to_nat 7 * Z.to_nat 1)%nat /\
  (forall rs, remain (layout res) = Some rs ->
     exists g' st, remainder_of (mkGrid 7 1) (sizing_of scB) = Ok (Some (g', st)) /\
       0 < row g' /\ 0 < column g' /\
       length rs = (Z.to_nat (row g') * Z.to_nat (column g'))%nat /\ rs <> []).
Proof.
  eexists; split; [reflexivity|].
  apply (calculate_counts scB (mkGrid 7 1)); reflexivity.
Defined.

(** X2: placements are listed row by row: the [i]-th placement of [main]
    sits at [gridRow = i / column], [gridColumn = i mod column] of the
    primary grid, its outer rectangle at [(gridColumn * outer.width,
    gridRow * outer.height)]; the [i]-th placement of [remain] likewise in
    the remainder grid, offset by its start, with the outer cell rotated. *)
Theorem calculate_row_major (self : Calculator) (g : IMatrixGrid) (res : CalcResult) :
  primaryGrid self = Ok g -> calculate self = Ok res ->
  let o := outerSize (sizing_of self) in
  (forall i p, nth_error (main (layout res)) i = Some p ->
     gridRow p = Z.of_nat i / column g /\ gridColumn p = Z.of_nat i mod column g /\
     rx (outer p) = gridColumn p * width o /\ ry (outer p) = gridRow p * height o) /\
  (forall rs i p, remain (layout res) = Some rs -> nth_error rs i = Some p ->
     exists g' st, remainder_of g (sizing_of self) = Ok (Some (g', st)) /\
       gridRow p = Z.of_nat i / column g' /\ gridColumn p = Z.of_nat i mod column g' /\
       rx (outer p) = x st + gridColumn p * height o /\
       ry (outer p) = y st + gridRow p * width o).
Proof.
  intros Hp Hc; cbn zeta; apply calculate_inv in Hc as (g0 & Hg0 & Hgen & _).
  rewrite Hp in Hg0; injection Hg0 as <-.
  apply generate_inv in Hgen as (Hr & Hcol & Hm & Hrem).
  split.
  - intros i p Hi; rewrite Hm in Hi; unfold main_of in Hi.
    apply nth_build_rows in Hi as (r & c & _ & Hc & -> & ->).
    destruct (row_major_index r c (Z.to_nat (column g)) Hc) as [Hd Hmod].
    rewrite Z2Nat.id in Hd, Hmod by lia; rewrite Hd, Hmod.
    unfold cell; proj; cbn [gridRow gridColumn start_x start_y]; repeat split; lia.
  - intros rs i p Hrs Hi.
    destruct Hrem as [[Hn _] | (g' & st & H1 & H2 & H3 & H4)]; [congruence|].
    rewrite H4 in Hrs; injection Hrs as <-; unfold remain_of in Hi.
    apply nth_build_rows in Hi as (r & c & _ & Hc & -> & ->).
    destruct (row_major_index r c (Z.to_nat (column g')) Hc) as [Hd Hmod].
    rewrite Z2Nat.id in Hd, Hmod by lia.
    exists g', st; rewrite Hd, Hmod; split; [exact H1|].
    unfold cell; proj; cbn [gridRow gridColumn start_x start_y]; repeat split; lia.
Qed.

Lemma calculate_row_major_witness :
  exists res, calculate scB = Ok res /\
  let o := outerSize (sizing_of scB) in
  (forall i p, nth_error (main (layout res)) i = Some p ->
     gridRow p = Z.of_nat i / column (mkGrid 7 1) /\
     gridColumn p = Z.of_nat i mod column (mkGrid 7 1) /\
     rx (outer p) = gridColumn p * width o /\ ry (outer p) = gridRow p * height o) /\
  (forall rs i p, remain (layout res) = Some rs -> nth_error rs i = Some p ->
     exists g' st, remainder_of (mkGrid 7 1) (sizing_of scB) = Ok (Some (g', st)) /\
       gridRow p = Z.of_nat i / column g' /\ gridColumn p = Z.of_nat i mod column g' /\
       rx (outer p) = x st + gridColumn p * height o /\
       ry (outer p) = y st + gridRow p * width o).
Proof.
  eexists; split; [reflexivity|].
  apply (calculate_row_major scB (mkGrid 7 1)); reflexivity.
Defined.

(** *** Construction *)

(** X3: a margin whose width and height are both [NaN] (e.g. two
    non-numeric strings) passes every check for any positive numeric source
    and target, even a target larger than the source, since comparisons
    with [NaN] are false; the constructor then stores the margin as
    [{width: 0, height: 0}]. *)
Theorem construct_nan_margin (sw sh tw th : Z) (useInline : bool) :
  0 < sw -> 0 < sh -> 0 < tw -> 0 < th ->
  construct (mkRaw (JNum sw) (JNum sh)) (mkRaw (JNum tw) (JNum th)) (mkRaw JNaN JNaN) useInline =
  Ok (mkRawCalculator (mkRaw (JNum sw) (JNum sh)) (mkRaw (JNum tw) (JNum th))
                      (mkRaw (JNum 0) (JNum 0)) useInline).
Proof.
  intros Hsw Hsh Htw Hth.
  unfold construct, _validateTarget, _validateSource, _validateMargin, too_large.
  cbn [rw rh isNaN jle jlt jgt jadd jmul jfalsy orb andb].
  replace (tw <=? 0) with false by (symmetry; apply Z.leb_gt; lia).
  replace (th <=? 0) with false by (symmetry; apply Z.leb_gt; lia).
  replace (sw <=? 0) with false by (symmetry; apply Z.leb_gt; lia).
  replace (sh <=? 0) with false by (symmetry; apply Z.leb_gt; lia).
  reflexivity.
Qed.

Lemma construct_nan_margin_witness :
  construct (mkRaw (JNum 10) (JNum 10)) (mkRaw (JNum 40) (JNum 40)) (mkRaw JNaN JNaN) true =
  Ok (mkRawCalculator (mkRaw (JNum 10) (JNum 10)) (mkRaw (JNum 40) (JNum 40))
                      (mkRaw (JNum 0) (JNum 0)) true).
Proof. apply construct_nan_margin; lia. Defined.

(** *** Configuration *)

Lemma sbind_unit_inr {E B} (m : E + unit) (k : unit -> E + B) (b : B) :
  sbind m k = inr b <-> m = inr tt /\ k tt = inr b.
Proof.
  destruct m as [e|[]]; cbn; split; try (intros [H _]; discriminate H);
    try discriminate; intuition.
Qed.

Lemma SFeqb_refl_finite s m e : SFeqb (S754_finite s m e) (S754_finite s m e) = true.
Proof.
  unfold SFeqb, SFcompare; destruct s; rewrite Z.compare_refl, Pos.compare_cont_refl;
    reflexivity.
Qed.

(** [n && n <= 0] on a number is [n < 0]. *)
Lemma js_falsy_le x : negb (js_falsy x) && (x <=? 0)%float = (x <? 0)%float.
Proof.
  unfold js_falsy, is_nan.
  rewrite !FloatAxioms.eqb_spec, FloatAxioms.leb_spec, FloatAxioms.ltb_spec.
  change (Prim2SF 0) with (S754_zero false).
  destruct (Prim2SF x) as [s|s| |s m e]; try destruct s; try reflexivity;
    cbn -[SFeqb]; rewrite ?SFeqb_refl_finite; reflexivity.
Qed.

Lemma check_lineWidth_ok lw :
  check_lineWidth lw = inr tt <-> (forall q, lw = Some q -> (q <? 0)%float = false).
Proof.
  unfold check_lineWidth; destruct lw as [q|]; [|split; [intros _ q H; discriminate H | reflexivity]].
  rewrite js_falsy_le; destruct (q <? 0)%float eqn:E.
  - split; [discriminate | intros H; rewrite (H q eq_refl) in E; discriminate E].
  - split; [intros _ q' H; injection H as <-; exact E | reflexivity].
Qed.

Lemma check_color_ok f key c : check_color f key c = inr tt <-> color_ok f c.
Proof.
  unfold check_color, color_ok, str_truthy; destruct c as [s|].
  - destruct (String.eqb s String.EmptyString) eqn:E; cbn.
    + apply String.eqb_eq in E; split; [intros _ s' H Hne; injection H as <-; contradiction | reflexivity].
    + apply String.eqb_neq in E; destruct (f s) eqn:Ef; cbn.
      * split; [intros _ s' H _; injection H as <-; exact Ef | reflexivity].
      * split; [discriminate | intros H; rewrite (H s eq_refl E) in Ef; discriminate].
  - split; [intros _ s H; discriminate H | reflexivity].
Qed.

Lemma validateConfig_spec f config w :
  _validateConfig f config = inr w <->
  (forall lw, lineWidth config = Some lw -> (lw <? 0)%float = false) /\
  color_ok f (paperColor config) /\ color_ok f (strokeColor config) /\
  color_ok f (textColor config) /\ color_ok f (mainOuterColor config) /\
  color_ok f (mainInnerColor config) /\ color_ok f (remainOuterColor config) /\
  color_ok f (remainInnerColor config) /\
  exists r, ratio config = Some r /\ is_nan r = false /\ w = (28.346 <? r)%float.
Proof.
  unfold _validateConfig.
  repeat (rewrite sbind_unit_inr; cbv beta).
  rewrite check_lineWidth_ok, !check_color_ok.
  assert (Hr : (match ratio config with
                | None => inl RatioNaN
                | Some r => if is_nan r then inl RatioNaN else inr (28.346 <? r)%float
                end = inr w) <->
               exists r, ratio config = Some r /\ is_nan r = false /\ w = (28.346 <? r)%float).
  { destruct (ratio config) as [r|].
    - destruct (is_nan r) eqn:En; split.
      + discriminate.
      + intros (r' & H & Hn & _); injection H as <-; rewrite En in Hn; discriminate Hn.
      + intros H; injection H as <-; exists r; repeat split; assumption.
      + intros (r' & H & _ & ->); injection H as <-; reflexivity.
    - split; [discriminate | intros (r' & H & _); discriminate H]. }
  rewrite Hr; reflexivity.
Qed.

(** X4: [_validateConfig] accepts a configuration exactly when its
    [lineWidth], if given, is not below [0] ([0], [-0] and [NaN] pass, being
    falsy), each given non-empty color passes [_isValidColor], and [ratio]
    is given and not [NaN] (an absent ratio is [NaN]); any other ratio is
    accepted, and the warning is emitted exactly when it exceeds the
    double nearest to 28.346. *)
Theorem validateConfig_accepts (isValidColor : String.string -> bool)
    (config : ILayoutConfig) (warned : bool) :
  _validateConfig isValidColor config = inr warned <->
  (forall lw, lineWidth config = Some lw -> (lw <? 0)%float = false) /\
  color_ok isValidColor (paperColor config) /\ color_ok isValidColor (strokeColor config) /\
  color_ok isValidColor (textColor config) /\ color_ok isValidColor (mainOuterColor config) /\
  color_ok isValidColor (mainInnerColor config) /\
  color_ok isValidColor (remainOuterColor config) /\
  color_ok isValidColor (remainInnerColor config) /\
  exists r, ratio config = Some r /\ is_nan r = false /\ warned = (28.346 <? r)%float.
Proof. apply validateConfig_spec. Qed.

Lemma color_ok_assign f n c : color_ok f n -> color_ok f c -> color_ok f (assign n c).
Proof. destruct n; cbn; auto. Qed.

(** X5: the [config] setter keeps the stored configuration acceptable to
    [_validateConfig]: if it was, and the assignment succeeds, the merged
    configuration is too. *)
Theorem set_config_keeps_valid (isValidColor : String.string -> bool)
    (current config updated : ILayoutConfig) :
  (exists w, _validateConfig isValidColor current = inr w) ->
  set_config isValidColor current config = inr updated ->
  exists w, _validateConfig isValidColor updated = inr w.
Proof.
  intros [w0 Hcur] Hset; unfold set_config in Hset.
  destruct (_validateConfig isValidColor config) as [e|w1] eqn:Hnew; [discriminate Hset|].
  cbn in Hset; injection Hset as <-.
  apply validateConfig_spec in Hcur as (L0 & P0 & S0 & T0 & MO0 & MI0 & RO0 & RI0 & r0 & R0 & _).
  apply validateConfig_spec in Hnew as (L1 & P1 & S1 & T1 & MO1 & MI1 & RO1 & RI1 & r1 & R1 & N1 & _).
  exists (28.346 <? r1)%float; apply validateConfig_spec.
  unfold merge_config; cbn [lineWidth paperColor strokeColor textColor mainOuterColor
    mainInnerColor remainOuterColor remainInnerColor ratio].
  repeat split; try (apply color_ok_assign; assumption).
  - destruct (lineWidth config) eqn:E; cbn; auto.
  - exists r1; rewrite R1; repeat split; assumption.
Qed.

Lemma set_config_keeps_valid_witness :
  exists updated,
    set_config (fun _ => true) default_config
      (mkConfig None (Some "black"%string) (Some 0%float) None None None None None None
                (Some 30%float)) = inr updated /\
    exists w, _validateConfig (fun _ => true) updated = inr w.
Proof.
  eexists; split; [reflexivity|].
  apply (set_config_keeps_valid (fun _ => true) default_config
           (mkConfig None (Some "black"%string) (Some 0%float) None None None None None None
                     (Some 30%float))).
  - eexists; reflexivity.
  - reflexivity.
Defined.

(** *** Drawing *)

Lemma length_map_index {A B} (f : Z -> A -> B) i l : length (map_index f i l) = length l.
Proof. revert i; induction l; intros; cbn; auto. Qed.

Lemma in_map_index {A B} (f : Z -> A -> B) i l b :
  In b (map_index f i l) -> exists j a, In a l /\ b = f j a.
Proof.
  revert i; induction l as [|a l IH]; intros i H; cbn in H; [contradiction|].
  destruct H as [<-|Hin]; [exists i, a; split; [left|]; reflexivity|].
  apply IH in Hin as (j & a' & Ha & ->); exists j, a'; split; [right|]; auto.
Qed.

Lemma map_index_numbers {A B} (f : Z -> A -> B) (g : B -> Z) s i l :
  (forall j a, g (f j a) = s + j + 1) -> 0 <= s + i ->
  map g (map_index f i l) = map Z.of_nat (seq (Z.to_nat (s + i + 1)) (length l)).
Proof.
  intros Hg; revert i; induction l as [|a l IH]; intros i Hi; cbn; [reflexivity|].
  rewrite Hg, IH by lia.
  replace (Z.to_nat (s + (i + 1) + 1)) with (S (Z.to_nat (s + i + 1))) by lia.
  f_equal; lia.
Qed.

Lemma labels_app (a b : nat) :
  labels (Z.of_nat a + Z.of_nat b) =
  map Z.of_nat (seq (Z.to_nat (0 + 0 + 1)) a) ++
  map Z.of_nat (seq (Z.to_nat (Z.of_nat a + 0 + 1)) b).
Proof.
  unfold labels; rewrite <- map_app.
  replace (Z.to_nat (Z.of_nat a + Z.of_nat b)) with (a + b)%nat by lia.
  rewrite seq_app; do 3 f_equal; lia.
Qed.

Lemma calculate_total_split self res :
  calculate self = Ok res ->
  total res = Z.of_nat (length (main (layout res))) +
              Z.of_nat (match remain (layout res) with Some rs => length rs | None => 0 end).
Proof.
  intros H; apply calculate_inv in H as (g & _ & _ & ->).
  unfold count_total, layout_values.
  destruct (remain (layout res)); cbn [fold_left]; lia.
Qed.

(** X9: [drawSvg] numbers the blocks [1], [2], ..., [total] in order,
    [main] first and [remain] from [main.length + 1] on, and each group's
    id [cutting-block-n] carries the number of its text. *)
Theorem drawSvg_labels (self : Calculator) (cfg : DrawConfig) (res : CalcResult) :
  calculate self = Ok res ->
  exists doc, drawSvg self cfg = inr doc /\
    map (fun b => tcontent (gtext b)) (blocks doc) = labels (total res) /\
    Forall (fun b => gid b = tcontent (gtext b)) (blocks doc).
Proof.
  intros Hc; pose proof (calculate_total_split self res Hc) as Ht.
  unfold drawSvg; rewrite Hc; eexists; split; [reflexivity|]; cbn [blocks].
  unfold _plottingSvgRectLayout; split.
  - rewrite Ht, labels_app, map_app.
    rewrite (map_index_numbers _ _ 0 0) by (reflexivity || lia).
    f_equal; destruct (remain (layout res)); cbn [length map]; [|reflexivity].
    apply map_index_numbers; [reflexivity | lia].
  - apply Forall_forall; intros b Hb; apply in_app_or in Hb as [Hb|Hb];
      [|destruct (remain (layout res)); [|contradiction]];
      apply in_map_index in Hb as (j & a & _ & ->); reflexivity.
Qed.

Lemma drawSvg_labels_witness :
  exists res, calculate scB = Ok res /\
  exists doc, drawSvg scB default_draw_config = inr doc /\
    map (fun b => tcontent (gtext b)) (blocks doc) = labels (total res) /\
    Forall (fun b => gid b = tcontent (gtext b)) (blocks doc).
Proof.
  eexists; split; [reflexivity|].
  apply (drawSvg_labels scB default_draw_config); reflexivity.
Defined.

(** X10: in [drawSvg], the first [main.length] blocks are filled with the
    main colors and the following ones with the remain colors. *)
Theorem drawSvg_colors (self : Calculator) (cfg : DrawConfig) (res : CalcResult)
    (doc : SvgDoc) :
  calculate self = Ok res -> drawSvg self cfg = inr doc ->
  forall k b, nth_error (blocks doc) k = Some b ->
  ((k < length (main (layout res)))%nat ->
     sfill (gouter b) = d_mainOuterColor cfg /\ sfill (ginner b) = d_mainInnerColor cfg) /\
  ((length (main (layout res)) <= k)%nat ->
     sfill (gouter b) = d_remainOuterColor cfg /\ sfill (ginner b) = d_remainInnerColor cfg).
Proof.
  intros Hc Hd k b Hk; unfold drawSvg in Hd; rewrite Hc in Hd; injection Hd as <-.
  cbn [blocks] in Hk; unfold _plottingSvgRectLayout in Hk; split; intros Hlt.
  - rewrite nth_error_app1 in Hk by (rewrite length_map_index; exact Hlt).
    apply nth_error_In, in_map_index in Hk as (j & a & _ & ->); split; reflexivity.
  - rewrite nth_error_app2 in Hk by (rewrite length_map_index; exact Hlt).
    destruct (remain (layout res)); [|destruct (_ - _)%nat; discriminate Hk].
    apply nth_error_In, in_map_index in Hk as (j & a & _ & ->); split; reflexivity.
Qed.

Lemma drawSvg_colors_witness :
  exists res doc, calculate scB = Ok res /\ drawSvg scB default_draw_config = inr doc /\
  forall k b, nth_error (blocks doc) k = Some b ->
  ((k < length (main (layout res)))%nat ->
     sfill (gouter b) = d_mainOuterColor default_draw_config /\
     sfill (ginner b) = d_mainInnerColor default_draw_config) /\
  ((length (main (layout res)) <= k)%nat ->
     sfill (gouter b) = d_remainOuterColor default_draw_config /\
     sfill (ginner b) = d_remainInnerColor default_draw_config).
Proof.
  do 2 eexists; split; [reflexivity|]; split; [reflexivity|].
  apply (drawSvg_colors scB default_draw_config); reflexivity.
Defined.

Lemma fill_texts_app l1 l2 : fill_texts (l1 ++ l2) = fill_texts l1 ++ fill_texts l2.
Proof. induction l1 as [|[] l1 IH]; cbn; rewrite ?IH; reflexivity. Qed.

Lemma fill_texts_outer cfg c l : fill_texts (flat_map (canvas_outer cfg c) l) = [].
Proof. induction l; cbn; auto. Qed.

Lemma fill_texts_inner_loop cfg m s c i l :
  0 <= s + i ->
  fill_texts (concat (map_index (canvas_inner cfg m s c) i l)) =
  map Z.of_nat (seq (Z.to_nat (s + i + 1)) (length l)).
Proof.
  revert i; induction l as [|a l IH]; intros i Hi; cbn [map_index concat]; [reflexivity|].
  rewrite fill_texts_app, IH by lia.
  unfold canvas_inner; cbv zeta.
  destruct (_ && _)%bool; cbn [app fill_texts length seq map];
  replace (Z.to_nat (s + (i + 1) + 1)) with (S (Z.to_nat (s + i + 1))) by lia;
  f_equal; lia.
Qed.

Lemma fill_texts_plotting cfg m l s oc ic :
  0 <= s ->
  fill_texts (_plottingCanvasRectLayout cfg m l s oc ic) =
  map Z.of_nat (seq (Z.to_nat (s + 0 + 1)) (length l)).
Proof.
  intros Hs; unfold _plottingCanvasRectLayout; cbv zeta.
  rewrite fill_texts_app, fill_texts_inner_loop by lia.
  destruct (_ && _)%bool; rewrite ?fill_texts_outer; reflexivity.
Qed.

(** X12: [drawCanvas] writes the numbers [1], [2], ..., [total] with
    [fillText], in order, and no other text. *)
Theorem drawCanvas_labels (self : Calculator) (cfg : DrawConfig) (res : CalcResult) :
  calculate self = Ok res ->
  exists ops, drawCanvas self cfg = inr ops /\ fill_texts ops = labels (total res).
Proof.
  intros Hc; pose proof (calculate_total_split self res Hc) as Ht.
  unfold drawCanvas; rewrite Hc; eexists; split; [reflexivity|].
  rewrite !fill_texts_app, fill_texts_plotting by lia.
  rewrite Ht, labels_app; cbn [fill_texts app]; f_equal.
  destruct (remain (layout res)); cbn [fill_texts app length seq map]; [|reflexivity].
  rewrite fill_texts_plotting by lia; apply app_nil_r.
Qed.

Lemma drawCanvas_labels_witness :
  exists res, calculate scB = Ok res /\
  exists ops, drawCanvas scB default_draw_config = inr ops /\ fill_texts ops = labels (total res).
Proof.
  eexists; split; [reflexivity|].
  apply (drawCanvas_labels scB default_draw_config); reflexivity.
Defined.

(** X15: on numeric sizes the constructor accepts exactly the valid inputs
    and stores them unchanged: its [{width: 0, height: 0}] rewrite of the
    margin only changes non-numeric values. *)
Theorem construct_numeric (source target margin : ISquareSize) (useInline : bool) :
  valid (mkCalculator source target margin useInline) ->
  construct (raw_of source) (raw_of target) (raw_of margin) useInline =
  Ok (mkRawCalculator (raw_of source) (raw_of target) (raw_of margin) useInline).
Proof.
  intros Hv; apply construct_numeric_ok in Hv as [c Hc]; rewrite Hc.
  unfold construct in Hc.
  repeat match type of Hc with
  | context [bind ?m _] => destruct m as [[]|e] eqn:?; cbn [bind] in Hc; [|discriminate Hc]
  end.
  injection Hc as <-; f_equal.
  destruct margin as [mw mh]; unfold raw_of; cbn [rw rh width height jfalsy].
  destruct (mw =? 0) eqn:E1, (mh =? 0) eqn:E2; cbn [andb]; zbool; subst; reflexivity.
Qed.

Lemma construct_numeric_witness :
  construct (raw_of (mkSize 65 100)) (raw_of (mkSize 43 12)) (raw_of (mkSize 0 0)) true =
  Ok (mkRawCalculator (raw_of (mkSize 65 100)) (raw_of (mkSize 43 12)) (raw_of (mkSize 0 0)) true).
Proof. apply construct_numeric; unfold valid; cbn; lia. Defined.

Lemma font_sizes_app l1 l2 : font_sizes (l1 ++ l2) = font_sizes l1 ++ font_sizes l2.
Proof. induction l1 as [|[] l1 IH]; cbn; rewrite ?IH; reflexivity. Qed.

Lemma font_sizes_outer cfg c l : font_sizes (flat_map (canvas_outer cfg c) l) = [].
Proof. induction l; cbn; auto. Qed.

Lemma font_sizes_loops cfg m s c s' oc ic i i' l :
  font_sizes (concat (map_index (canvas_inner cfg m s c) i l)) =
  map (fun b => tfontSize (gtext b)) (map_index (svg_block cfg s' oc ic) i' l).
Proof.
  revert i i'; induction l as [|a l IH]; intros i i'; cbn [map_index concat map]; [reflexivity|].
  rewrite font_sizes_app, (IH (i + 1) (i' + 1)).
  unfold canvas_inner; cbv zeta.
  destruct (_ && _)%bool; reflexivity.
Qed.

Lemma font_sizes_plotting cfg m l s oc ic s' oc' ic' :
  font_sizes (_plottingCanvasRectLayout cfg m l s oc ic) =
  map (fun b => tfontSize (gtext b)) (_plottingSvgRectLayout cfg l s' oc' ic').
Proof.
  unfold _plottingCanvasRectLayout, _plottingSvgRectLayout; cbv zeta.
  rewrite font_sizes_app, (font_sizes_loops _ _ _ _ s' oc' ic' _ 0).
  destruct (_ && _)%bool; rewrite ?font_sizes_outer; reflexivity.
Qed.

(** X16: [drawCanvas] and [drawSvg] give each piece the same font size:
    the canvas scales [_calculateFontSize] by [ratio] inside the call, the
    SVG multiplies its result by [ratio]. *)
Theorem draw_same_font_sizes (self : Calculator) (cfg : DrawConfig) (res : CalcResult) :
  calculate self = Ok res ->
  exists ops doc, drawCanvas self cfg = inr ops /\ drawSvg self cfg = inr doc /\
    font_sizes ops = map (fun b => tfontSize (gtext b)) (blocks doc).
Proof.
  intros Hc; unfold drawCanvas, drawSvg; rewrite Hc.
  do 2 eexists; split; [reflexivity|]; split; [reflexivity|]; cbv zeta.
  cbn [font_sizes blocks]; rewrite !font_sizes_app, map_app.
  rewrite (font_sizes_plotting _ _ _ _ _ _ 0 (d_mainOuterColor cfg) (d_mainInnerColor cfg)).
  cbn [font_sizes app]; f_equal; destruct (remain (layout res)); cbn [font_sizes app map]; [|reflexivity].
  rewrite app_nil_r; apply font_sizes_plotting.
Qed.

Lemma draw_same_font_sizes_witness :
  exists res, calculate scB = Ok res /\
  exists ops doc, drawCanvas scB default_draw_config = inr ops /\
    drawSvg scB default_draw_config = inr doc /\
    font_sizes ops = map (fun b => tfontSize (gtext b)) (blocks doc).
Proof.
  eexists; split; [reflexivity|].
  eapply (draw_same_font_sizes scB default_draw_config); reflexivity.
Defined.

(** *** The layout core on numbers *)

(** X18: [calculate] never throws the errors of [_validateRectMatrixArray]:
    [_buildRectMatrix] is only called on [Array(n).fill(Array(k).fill(...))]
    with [n] and [k] not [<= 0] (by [_validateGrid] for the main grid, by
    the [row > 0 && column > 0] guard for the remainder), and [Array]
    accepts such a number only when it is a whole number of at least 1. *)
Theorem calculate_no_empty_matrix (self : F64.Calculator) :
  F64.calculate self <> Err EmptyRectMatrixArray /\
  F64.calculate self <> Err EmptyRectMatrixRow.
Proof.
  assert (H : avoids rect_err (F64.calculate self)).
  { unfold F64.calculate.
    apply av_bind; [unfold F64.primaryGrid; destruct (F64._useInline self);
                    [apply av_inlineCut | apply av_crossCut]; reflexivity|intros g _].
    apply av_bind; [unfold F64._validateGrid; apply av_bind; [|intros]; apply av_throw; reflexivity
                   |intros [] Hg].
    assert (E1 : (F64.row g <=? 0)%float = false /\ (F64.column g <=? 0)%float = false).
    { unfold F64._validateGrid in Hg.
      destruct (F64.row g <=? 0)%float, (F64.column g <=? 0)%float; cbn in Hg;
        try discriminate Hg; split; reflexivity. }
    destruct E1 as [E1 E2].
    apply av_bind; [|intros; apply av_ok].
    unfold F64._generateLayoutMatrix; rewrite Hg; cbn [bind].
    apply av_bind; [apply av_mkMatrix; reflexivity|intros mm Hmm].
    apply av_bind; [apply av_buildRectMatrix_valid; [reflexivity | eapply mkMatrix_valid; eassumption]
                   |intros mn _].
    apply av_bind; [apply av_calculateRemain; reflexivity|intros [[g0 st0]|] _]; [|apply av_ok].
    destruct ((0 <? F64.row g0) && (0 <? F64.column g0))%float eqn:E; [|apply av_ok].
    apply andb_true_iff in E as [E3 E4].
    apply av_bind; [apply av_mkMatrix; reflexivity|intros rm Hrm].
    apply av_bind; [|intros; apply av_ok].
    apply av_buildRectMatrix_valid; [reflexivity|].
    eapply mkMatrix_valid; [eassumption | apply lt_not_le; assumption ..]. }
  split; intros E; apply H in E; discriminate E.
Qed.
